(** * finder.py: a shallow embedding of the subdomain finder CLI

    The development follows [finder.py] function by function.  Text is
    modelled as [string] whose characters stand for code points below 256,
    Python sets as [gset string], Python lists as [list], integers as [Z] and
    the float time-outs as rationals.  Effects (standard output, the error
    stream, the process-wide socket time-out, DNS, HTTP and file access) are
    threaded through a small state-and-exception monad; everything that
    belongs to the outside world is read from an explicit environment.
    The worker threads are interleaved one operation on the shared queue,
    set or list at a time, in the order the environment's schedule gives. *)

From Stdlib Require Import ZArith QArith Ascii.
From stdpp Require Import base option list strings gmap sorting pretty.

Local Open Scope Z_scope.

(* ===================================================================== *)
(** ** Python text operations *)
(* ===================================================================== *)

Module PyStr.

Definition LF : ascii := "010"%char.
Definition CR : ascii := "013"%char.

(** The line feed as a one-character string, written [\n] in the source. *)
Definition nl : string := String LF "".

(** [str.isspace] on one character, for code points below 256:
    TAB, LF, VT, FF, CR, the separators FS, GS, RS, US, the space,
    NEL (0x85) and the no-break space (0xA0). *)
Definition isspace (c : ascii) : bool :=
  let n := nat_of_ascii c in
  ((9 <=? n) && (n <=? 13) || (28 <=? n) && (n <=? 32)
   || (n =? 133) || (n =? 160))%nat.

(** [s.lstrip()] *)
Fixpoint lstrip (s : string) : string :=
  match s with
  | "" => ""
  | String c r => if isspace c then lstrip r else s
  end.

(** [s.rstrip()] *)
Fixpoint rstrip (s : string) : string :=
  match s with
  | "" => ""
  | String c r =>
      match rstrip r with
      | "" => if isspace c then "" else String c ""
      | r' => String c r'
      end
  end.

(** [s.strip()] *)
Definition strip (s : string) : string := rstrip (lstrip s).

(** Truth value of a string: [bool(s)]. *)
Definition nonempty (s : string) : bool :=
  match s with "" => false | _ => true end.

(** [s.startswith(p)] *)
Fixpoint startswith (p s : string) : bool :=
  match p, s with
  | "", _ => true
  | String a p', String b s' => if decide (a = b) then startswith p' s' else false
  | String _ _, "" => false
  end.

(** [needle in hay] *)
Fixpoint contains (needle hay : string) : bool :=
  startswith needle hay
  || match hay with
     | "" => false
     | String _ hay' => contains needle hay'
     end.

(** [s.split('\n')] *)
Fixpoint split_nl (s : string) : list string :=
  match s with
  | "" => [""]
  | String c r =>
      if decide (c = LF) then "" :: split_nl r
      else match split_nl r with
           | l :: ls => String c l :: ls
           | [] => [String c ""]
           end
  end.

(** Text-mode reading with universal newlines: CR LF and a lone CR are
    handed to the program as LF. *)
Fixpoint universal_newlines (s : string) : string :=
  match s with
  | "" => ""
  | String c r =>
      if decide (c = CR) then
        match r with
        | String c' r' =>
            if decide (c' = LF) then String LF (universal_newlines r')
            else String LF (universal_newlines r)
        | "" => String LF ""
        end
      else String c (universal_newlines r)
  end.

(** The lines a text file object yields when iterated: each keeps its
    terminating LF, the last one may lack it. *)
Fixpoint iter_lines (s : string) : list string :=
  match s with
  | "" => []
  | String c r =>
      if decide (c = LF) then String c "" :: iter_lines r
      else match iter_lines r with
           | l :: ls => String c l :: ls
           | [] => [String c ""]
           end
  end.

(** [s[:n]] *)
Fixpoint take (n : nat) (s : string) : string :=
  match n, s with
  | S n', String c r => String c (take n' r)
  | _, _ => ""
  end.

End PyStr.

(* ===================================================================== *)
(** ** Exceptions, observable events and the effect monad *)
(* ===================================================================== *)

(** The exceptions that occur in [finder.py], each with the text that
    [str(e)] gives. *)
Inductive exn :=
  | TypeError (msg : string)
  | ValueError (msg : string)
  | FileNotFoundError (msg : string)
  | OSError (msg : string)
  | RequestException (msg : string)
  | AttributeError (msg : string)
  | UnboundLocalError (msg : string)
  | OtherException (msg : string)
  | KeyboardInterrupt
  | SystemExit (code : Z).

Definition exn_str (e : exn) : string :=
  match e with
  | TypeError m | ValueError m | FileNotFoundError m | OSError m
  | RequestException m | AttributeError m | UnboundLocalError m
  | OtherException m => m
  | KeyboardInterrupt => ""
  | SystemExit c => pretty c
  end.

Definition exn_name (e : exn) : string :=
  match e with
  | TypeError _ => "TypeError"
  | ValueError _ => "ValueError"
  | FileNotFoundError _ => "FileNotFoundError"
  | OSError _ => "OSError"
  | RequestException _ => "requests.exceptions.RequestException"
  | AttributeError _ => "AttributeError"
  | UnboundLocalError _ => "UnboundLocalError"
  | OtherException _ => "Exception"
  | KeyboardInterrupt => "KeyboardInterrupt"
  | SystemExit _ => "SystemExit"
  end.

(** [isinstance(e, Exception)]: everything but the two that derive from
    [BaseException] directly. *)
Definition is_Exception (e : exn) : bool :=
  match e with KeyboardInterrupt | SystemExit _ => false | _ => true end.

(** [isinstance(e, IOError)], that is [OSError] and its subclasses. *)
Definition is_IOError (e : exn) : bool :=
  match e with FileNotFoundError _ | OSError _ => true | _ => false end.

Definition is_TypeError (e : exn) : bool :=
  match e with TypeError _ => true | _ => false end.

(** What the process does that an observer can see, in order. *)
Inductive event :=
  | Stdout (text : string)             (* one [print(text)] *)
  | Stderr (text : string)             (* one [print(text, file=sys.stderr)] *)
  | SetDefaultTimeout (t : Q)          (* [socket.setdefaulttimeout(t)] *)
  | OpenRead (path : string)           (* [open(path, 'r')] *)
  | OpenWrite (path : string)          (* [open(path, 'w')] *)
  | FileWrite (path text : string)     (* [f.write(text)] *)
  | HttpGet (url : string)             (* [requests.get(url, ...)] *)
  | DnsQuery (name : string)           (* [socket.gethostbyname_ex(name)] *)
  | Submit (worker : nat).             (* [executor.submit(worker_bruteforce, ...)] *)

Definition is_stdout (e : event) : option string :=
  match e with Stdout t => Some t | _ => None end.
Definition is_stderr (e : event) : option string :=
  match e with Stderr t => Some t | _ => None end.
Definition is_network (e : event) : bool :=
  match e with HttpGet _ | DnsQuery _ => true | _ => false end.
Definition is_dns (e : event) : bool :=
  match e with DnsQuery _ => true | _ => false end.
Definition is_submit (e : event) : bool :=
  match e with Submit _ => true | _ => false end.

(** Mutable process state: what has been observed so far and the
    process-wide default socket time-out ([None] until it is set). *)
Record world := World {
  trace : list event;
  defaulttimeout : option Q
}.

Definition world0 : world := World [] None.

Definition stdout_of (w : world) : list string := omap is_stdout (trace w).
Definition stderr_of (w : world) : list string := omap is_stderr (trace w).

Inductive outcome (A : Type) :=
  | Ret (a : A)
  | Raise (e : exn).
Arguments Ret {A} a.
Arguments Raise {A} e.

Definition M (A : Type) : Type := world → outcome A * world.

Global Instance M_ret : MRet M := λ A a w, (Ret a, w).
Global Instance M_bind : MBind M := λ A B f m w,
  match m w with
  | (Ret a, w') => f a w'
  | (Raise e, w') => (Raise e, w')
  end.

Definition raise {A} (e : exn) : M A := λ w, (Raise e, w).

(** The world after one more event. *)
Definition after (w : world) (e : event) : world :=
  World (trace w ++ [e]) (defaulttimeout w).

Definition emit (e : event) : M unit := λ w, (Ret (), after w e).

Definition getdefaulttimeout : M (option Q) := λ w, (Ret (defaulttimeout w), w).

(** The world once the process-wide time-out is set (line 179). *)
Definition timeout_set (w : world) (t : Q) : world :=
  World (trace w ++ [SetDefaultTimeout t]) (Some t).

Definition setdefaulttimeout (t : Q) : M unit := λ w, (Ret (), timeout_set w t).

(** Lift the answer of the outside world into the monad. *)
Definition lift {A} (r : outcome A) : M A := λ w, (r, w).

(** [try: body except ...: handler]: [handler e] is [None] when no clause
    matches [e]; an exception raised by the handler itself propagates. *)
Definition try_except {A} (body : M A) (handler : exn → option (M A)) : M A :=
  λ w, match body w with
       | (Ret a, w') => (Ret a, w')
       | (Raise e, w') =>
           match handler e with
           | Some h => h w'
           | None => (Raise e, w')
           end
       end.

(** [for x in xs: body x] *)
Fixpoint for_each {A} (xs : list A) (body : A → M unit) : M unit :=
  match xs with
  | [] => mret ()
  | x :: xs' => body x ;; for_each xs' body
  end.

(* ===================================================================== *)
(** ** Calling a Python function: binding arguments to parameters *)
(* ===================================================================== *)

(** The values passed to [print_message] at its call sites. *)
Inductive pyval :=
  | PStr (s : string)
  | PBool (b : bool)
  | PStderr.                            (* the object [sys.stderr] *)

Definition truthy (v : pyval) : bool :=
  match v with
  | PStr s => PyStr.nonempty s
  | PBool b => b
  | PStderr => true
  end.

(** The text an f-string puts for a value. *)
Definition py_format (v : pyval) : string :=
  match v with
  | PStr s => s
  | PBool true => "True"
  | PBool false => "False"
  | PStderr => "<_io.TextIOWrapper name='<stderr>' mode='w' encoding='utf-8'>"
  end.

(** A parameter with its default value, if it has one. *)
Definition param : Type := string * option pyval.

(** Positional arguments fill the parameters from the left. *)
Fixpoint bind_positional (ps : list param) (pos : list pyval)
  : list (string * option pyval) * list pyval :=
  match ps, pos with
  | (x, _) :: ps', v :: pos' =>
      let '(bs, extra) := bind_positional ps' pos' in ((x, Some v) :: bs, extra)
  | _, [] => (map (λ p, (p.1, None)) ps, [])
  | [], _ => ([], pos)
  end.

(** A keyword argument must name a parameter that has no value yet. *)
Fixpoint bind_keyword (fname : string) (bs : list (string * option pyval))
    (k : string) (v : pyval) : outcome (list (string * option pyval)) :=
  match bs with
  | [] => Raise (TypeError (fname +:+ "() got an unexpected keyword argument '"
                            +:+ k +:+ "'"))
  | (x, o) :: bs' =>
      if decide (x = k) then
        match o with
        | None => Ret ((x, Some v) :: bs')
        | Some _ => Raise (TypeError (fname +:+ "() got multiple values for argument '"
                                      +:+ k +:+ "'"))
        end
      else match bind_keyword fname bs' k v with
           | Ret bs'' => Ret ((x, o) :: bs'')
           | Raise e => Raise e
           end
  end.

Fixpoint bind_keywords (fname : string) (bs : list (string * option pyval))
    (kw : list (string * pyval)) : outcome (list (string * option pyval)) :=
  match kw with
  | [] => Ret bs
  | (k, v) :: kw' =>
      match bind_keyword fname bs k v with
      | Ret bs' => bind_keywords fname bs' kw'
      | Raise e => Raise e
      end
  end.

(** Parameters still without a value take their default; one without a
    default is a missing argument. *)
Fixpoint fill_defaults (fname : string) (ps : list param)
    (bs : list (string * option pyval)) : outcome (list pyval) :=
  match ps, bs with
  | (x, d) :: ps', (_, o) :: bs' =>
      match (match o with Some v => Some v | None => d end) with
      | None => Raise (TypeError (fname +:+ "() missing 1 required positional argument: '"
                                  +:+ x +:+ "'"))
      | Some v =>
          match fill_defaults fname ps' bs' with
          | Ret vs => Ret (v :: vs)
          | Raise e => Raise e
          end
      end
  | _, _ => Ret []
  end.

(** The whole binding, in the order the interpreter checks: keywords, then
    surplus positional arguments, then missing ones. *)
Definition bind_args (fname : string) (ps : list param)
    (pos : list pyval) (kw : list (string * pyval)) : outcome (list pyval) :=
  let '(bs, extra) := bind_positional ps pos in
  match bind_keywords fname bs kw with
  | Raise e => Raise e
  | Ret bs' =>
      match extra with
      | _ :: _ => Raise (TypeError (fname +:+ "() takes at most "
                                    +:+ pretty (length ps)
                                    +:+ " positional arguments"))
      | [] => fill_defaults fname ps bs'
      end
  end.

(* ===================================================================== *)
(** ** [print_message] (lines 18-24) *)
(* ===================================================================== *)

(** [def print_message(message, verbose=False, is_verbose_msg=False)] *)
Definition print_message_params : list param :=
  [("message", None); ("verbose", Some (PBool false));
   ("is_verbose_msg", Some (PBool false))].

Definition print_message_body (message verbose is_verbose_msg : pyval) : M unit :=
  if truthy is_verbose_msg then
    if truthy verbose then emit (Stderr ("[*] " +:+ py_format message))
    else mret ()
  else emit (Stdout (py_format message)).

Definition print_message (pos : list pyval) (kw : list (string * pyval)) : M unit :=
  match bind_args "print_message" print_message_params pos kw with
  | Ret [message; verbose; is_verbose_msg] =>
      print_message_body message verbose is_verbose_msg
  | Ret _ => raise (TypeError "print_message()")
  | Raise e => raise e
  end.

(** The message of the TypeError at the call sites that pass [file]. *)
Definition unexpected_file : string :=
  "print_message() got an unexpected keyword argument 'file'".

(** A diagnostic trace line: written to the error stream when [verbose],
    nothing otherwise. *)
Definition logged (verbose : bool) (msg : string) (w : world) : world :=
  if verbose then after w (Stderr ("[*] " +:+ msg)) else w.

(** The three shapes of call in the source. *)

(** [print_message(msg, verbose, is_verbose_msg=True)] *)
Definition print_verbose (msg : string) (verbose : bool) : M unit :=
  print_message [PStr msg; PBool verbose] [("is_verbose_msg", PBool true)].

(** [print_message(msg, file=sys.stderr)] *)
Definition print_error (msg : string) : M unit :=
  print_message [PStr msg] [("file", PStderr)].

(** [print_message(msg, verbose=True)] *)
Definition print_always (msg : string) : M unit :=
  print_message [PStr msg] [("verbose", PBool true)].

(* ===================================================================== *)
(** ** The outside world *)
(* ===================================================================== *)

(** What [socket.gethostbyname_ex] does for one name: the triple it returns,
    or the exception it raises. *)
Inductive lookup :=
  | Addresses (hostname : string) (aliaslist ipaddrlist : list string)
  | gaierror (msg : string)             (* [socket.gaierror] *)
  | socket_timeout (msg : string)       (* [socket.timeout] *)
  | lookup_failed (msg : string).       (* any other [Exception] *)

(** One object of the crt.sh answer: its [name_value] member may be
    missing, be text, or be some other JSON value. *)
Inductive name_value_member :=
  | NoMember
  | TextMember (s : string)
  | NonTextMember.

(** The response object of [requests.get]. *)
Record response := Response {
  raise_for_status : outcome unit;
  text : string;
  json : outcome (list name_value_member)
}.

Record env := Env {
  (** [open(path, 'r')] followed by reading the whole text *)
  read_text : string → outcome string;
  (** whether [open(path, 'w')] succeeds *)
  open_write : string → outcome unit;
  (** the resolver, which sees the process-wide default time-out and the
      name and nothing else *)
  gethostbyname_ex : option Q → string → lookup;
  (** [requests.get(url, headers=..., timeout=15)] *)
  requests_get : string → outcome response;
  (** which worker the runtime lets take its next step, one entry per step *)
  schedule : list nat;
  (** the text of [end_time - start_time] with two decimals *)
  elapsed : string
}.

(* ===================================================================== *)
(** ** [resolve_subdomain] (lines 26-42) *)
(* ===================================================================== *)

Section Resolver.
Context (E : env).

(** The [timeout] parameter is in the signature and nowhere in the body. *)
Definition resolve_subdomain (subdomain_to_check : string) (timeout : Q)
    (verbose : bool) : M (option string) :=
  dt ← getdefaulttimeout;
  emit (DnsQuery subdomain_to_check);;
  match gethostbyname_ex E dt subdomain_to_check with
  | Addresses hostname aliaslist ipaddrlist =>
      match ipaddrlist with
      | ip0 :: _ =>
          print_verbose ("Resolved: " +:+ subdomain_to_check +:+ " -> " +:+ ip0)
                        verbose;;
          mret (Some subdomain_to_check)
      | [] =>
          (* [ipaddrlist[0]] raises IndexError, caught by [except Exception] *)
          print_verbose ("Error resolving " +:+ subdomain_to_check
                         +:+ ": list index out of range") verbose;;
          mret None
      end
  | gaierror _ =>
      print_verbose ("No record for: " +:+ subdomain_to_check) verbose;;
      mret None
  | socket_timeout _ =>
      print_verbose ("Timeout resolving: " +:+ subdomain_to_check) verbose;;
      mret None
  | lookup_failed msg =>
      print_verbose ("Error resolving " +:+ subdomain_to_check +:+ ": " +:+ msg)
                    verbose;;
      mret None
  end.

End Resolver.

(* ===================================================================== *)
(** ** [worker_bruteforce] (lines 44-57), one step at a time *)
(* ===================================================================== *)

(** A worker is the loop of [worker_bruteforce] cut at each operation on a
    shared object; between two of them another worker may run. *)

(** The objects the workers share: the [Queue] with its count of unfinished
    tasks, the set and the list. *)
Record shared := Shared {
  word_queue : list string;
  unfinished_tasks : nat;
  found_subdomains_set : gset string;
  results_list : list string
}.

(** Where a worker stands in the body of [worker_bruteforce]. *)
Inductive worker_pc :=
  | AtWhile                             (* line 46: [word_queue.empty()] *)
  | AtGet                               (* line 48: [word_queue.get_nowait()] *)
  | AtResolve (word : string)           (* lines 52-53 *)
  | AtMember (subdomain : string)       (* line 54 *)
  | AtAdd (subdomain : string)          (* line 55 *)
  | AtAppend (subdomain : string)       (* line 56 *)
  | AtTaskDone                          (* line 57 *)
  | Returned.

Global Instance worker_pc_eq_dec : EqDecision worker_pc.
Proof. solve_decision. Defined.

(** Line 52: [f"{word}.{domain}"] *)
Definition subdomain_of (domain word : string) : string :=
  word +:+ "." +:+ domain.

Section Worker.
Context (E : env) (domain : string) (timeout : Q) (verbose : bool).

(** One operation of one worker on the shared objects. *)
Definition worker_step (pc : worker_pc) (sh : shared)
  : M (worker_pc * shared) :=
  match pc with
  | AtWhile =>
      match word_queue sh with
      | [] => mret (Returned, sh)
      | _ :: _ => mret (AtGet, sh)
      end
  | AtGet =>
      match word_queue sh with
      | [] => mret (Returned, sh)     (* [queue.Empty] is caught: [return] *)
      | word :: rest =>
          mret (AtResolve word,
                Shared rest (unfinished_tasks sh)
                       (found_subdomains_set sh) (results_list sh))
      end
  | AtResolve word =>
      let subdomain := subdomain_of domain word in
      r ← resolve_subdomain E subdomain timeout verbose;
      match r with
      | Some _ => mret (AtMember subdomain, sh)
      | None => mret (AtTaskDone, sh)
      end
  | AtMember subdomain =>
      if decide (subdomain ∈ found_subdomains_set sh)
      then mret (AtTaskDone, sh)
      else mret (AtAdd subdomain, sh)
  | AtAdd subdomain =>
      mret (AtAppend subdomain,
            Shared (word_queue sh) (unfinished_tasks sh)
                   ({[subdomain]} ∪ found_subdomains_set sh) (results_list sh))
  | AtAppend subdomain =>
      mret (AtTaskDone,
            Shared (word_queue sh) (unfinished_tasks sh)
                   (found_subdomains_set sh) (results_list sh ++ [subdomain]))
  | AtTaskDone =>
      mret (AtWhile,
            Shared (word_queue sh) (pred (unfinished_tasks sh))
                   (found_subdomains_set sh) (results_list sh))
  | Returned => mret (Returned, sh)
  end.

(** The pool: every worker with its position, and the shared objects. *)
Definition pool : Type := list worker_pc * shared.

(** Worker [i] takes one step; a number that names no worker does nothing. *)
Definition pool_step (i : nat) (p : pool) : M pool :=
  match p.1 !! i with
  | None => mret p
  | Some pc =>
      '(pc', sh') ← worker_step pc p.2;
      mret (<[i := pc']> p.1, sh')
  end.

Fixpoint run_schedule (sched : list nat) (p : pool) : M pool :=
  match sched with
  | [] => mret p
  | i :: sched' => p' ← pool_step i p; run_schedule sched' p'
  end.

End Worker.

(* ===================================================================== *)
(** ** [brute_force_subdomains] (lines 60-101) *)
(* ===================================================================== *)

(** Line 73: [[line.strip() for line in f if line.strip()]] *)
Definition wordlist_words (file_text : string) : list string :=
  map PyStr.strip
      (List.filter (λ line, PyStr.nonempty (PyStr.strip line))
                   (PyStr.iter_lines (PyStr.universal_newlines file_text))).

(** When the runtime's schedule is used up while workers are still busy,
    the remaining workers are let run one after the other; [steps_bound]
    steps are enough for one worker to drain a queue of that length. *)
Definition steps_bound (queue_length : nat) : nat := 8 * queue_length + 8.

Definition completion_schedule (workers queue_length : nat) : list nat :=
  flat_map (λ i, replicate (steps_bound queue_length) i) (seq 0 workers).

(** The start message of the engine (line 69). *)
Definition start_message (domain : string) (num_threads : Z) : string :=
  "Starting DNS brute-force for " +:+ domain +:+ " with "
  +:+ pretty num_threads +:+ " threads...".

(** The pool when the workers have been submitted (line 91). *)
Definition initial_pool (words : list string) (n : nat) : pool :=
  (replicate n AtWhile, Shared words (length words) ∅ []).

Section Engine.
Context (E : env).

(** Lines 71-84: [Some words] when the queue was filled, [None] when the
    function has returned the empty list. *)
Definition load_wordlist (wordlist_path : string) (verbose : bool)
  : M (option (list string)) :=
  try_except
    (emit (OpenRead wordlist_path);;
     file_text ← lift (read_text E wordlist_path);
     let words := wordlist_words file_text in
     match words with
     | [] =>
         print_verbose "Wordlist is empty or contains only whitespace." verbose;;
         mret None
     | _ :: _ => mret (Some words)
     end)
    (λ e,
       match e with
       | FileNotFoundError _ =>
           Some (print_error ("Error: Wordlist file not found at '"
                              +:+ wordlist_path +:+ "'");;
                 mret None)
       | _ =>
           if is_Exception e then
             Some (print_error ("Error reading wordlist: " +:+ exn_str e);;
                   mret None)
           else None
       end).

(** Lines 88-94: the executor refuses a worker count that is not
    positive; otherwise [num_threads] workers are submitted and the call
    returns when all of them have.  The trace lists the submissions before
    the first step of any worker. *)
Definition run_pool (domain : string) (words : list string) (num_threads : Z)
    (timeout : Q) (verbose : bool) : M (list string) :=
  if decide (num_threads ≤ 0) then
    raise (ValueError "max_workers must be greater than 0")
  else
    let n := Z.to_nat num_threads in
    for_each (seq 0 n) (λ i, emit (Submit i));;
    '(_, sh) ← run_schedule E domain timeout verbose
                 (schedule E ++ completion_schedule n (length words))
                 (initial_pool words n);
    mret (results_list sh).

Definition brute_force_subdomains (domain wordlist_path : string)
    (num_threads : Z) (timeout : Q) (verbose : bool) : M (list string) :=
  print_verbose (start_message domain num_threads) verbose;;
  loaded ← load_wordlist wordlist_path verbose;
  match loaded with
  | None => mret []
  | Some words =>
      print_verbose ("Loaded " +:+ pretty (length words)
                     +:+ " words from wordlist.") verbose;;
      results ← run_pool domain words num_threads timeout verbose;
      print_verbose "DNS brute-force scan complete." verbose;;
      mret results
  end.

End Engine.

(* ===================================================================== *)
(** ** [fetch_crtsh_subdomains] (lines 103-137) *)
(* ===================================================================== *)

(** Line 14, with [{domain}] filled in. *)
Definition CRTSH_URL (domain : string) : string :=
  "https://crt.sh/?q=%." +:+ domain +:+ "&output=json".

(** Line 125: the condition under which [sub] is added. *)
Definition is_kept (domain sub : string) : bool :=
  PyStr.nonempty sub && PyStr.contains domain sub
  && negb (bool_decide (sub = domain)) && negb (PyStr.startswith "*." sub).

(** Lines 121-126: the inner loop over the names of one [name_value]. *)
Definition scan_name_value (domain name_value : string)
    (found_subdomains : gset string) : gset string :=
  foldl (λ found piece,
           let sub := PyStr.strip piece in
           if is_kept domain sub then {[sub]} ∪ found else found)
        found_subdomains (PyStr.split_nl name_value).

(** Lines 118-126: the loop over the entries; it stops at an entry whose
    [name_value] has no [split], leaving the set as it then is. *)
Fixpoint scan_entries (domain : string) (data : list name_value_member)
    (found_subdomains : gset string) : gset string * option exn :=
  match data with
  | [] => (found_subdomains, None)
  | entry :: data' =>
      match entry with
      | NoMember =>
          scan_entries domain data' (scan_name_value domain "" found_subdomains)
      | TextMember name_value =>
          scan_entries domain data'
                       (scan_name_value domain name_value found_subdomains)
      | NonTextMember =>
          (found_subdomains,
           Some (AttributeError "object has no attribute 'split'"))
      end
  end.

Section Passive.
Context (E : env).

(** Lines 113-126: the body of the [try], giving the set as it is when
    the body ends, the response if it was bound, and the exception that
    ended the body, if any. *)
Definition crtsh_try_body (domain : string)
  : gset string * option response * option exn :=
  match requests_get E (CRTSH_URL domain) with
  | Raise e => (∅, None, Some e)
  | Ret resp =>
      match raise_for_status resp with
      | Raise e => (∅, Some resp, Some e)
      | Ret _ =>
          match json resp with
          | Raise e => (∅, Some resp, Some e)
          | Ret data =>
              let '(found, err) := scan_entries domain data ∅ in
              (found, Some resp, err)
          end
      end
  end.

(** Lines 128-133: the [except] clauses, in their order. *)
Definition crtsh_handlers (resp : option response) (e : exn) : M unit :=
  match e with
  | RequestException msg => print_error ("Error fetching from crt.sh: " +:+ msg)
  | ValueError _ =>
      match resp with
      | Some r =>
          print_error ("Error parsing JSON response from crt.sh. Response text: "
                       +:+ PyStr.take 200 (text r) +:+ "...")
      | None =>
          raise (UnboundLocalError
                   "cannot access local variable 'response' where it is not associated with a value")
      end
  | _ =>
      if is_Exception e then
        print_error ("An unexpected error occurred with crt.sh: " +:+ exn_str e)
      else raise e
  end.

Definition fetch_crtsh_subdomains (domain : string) (verbose : bool)
  : M (list string) :=
  print_verbose ("Fetching subdomains from crt.sh for " +:+ domain +:+ "...")
                verbose;;
  emit (HttpGet (CRTSH_URL domain));;
  let '(found_subdomains, resp, err) := crtsh_try_body domain in
  match err with
  | Some e => crtsh_handlers resp e
  | None => mret ()
  end;;
  print_verbose ("Found " +:+ pretty (size found_subdomains)
                 +:+ " unique subdomains from crt.sh.") verbose;;
  mret (elements found_subdomains).

End Passive.

(* ===================================================================== *)
(** ** [main] (lines 139-212) and the [__main__] guard (lines 215-220) *)
(* ===================================================================== *)

(** The namespace [parser.parse_args()] returns.  Parsing itself, and the
    help shown when there is no argument at all, are argparse's. *)
Record args := Args {
  arg_domain : string;
  arg_wordlist : option string;
  arg_output : option string;
  arg_threads : Z;
  arg_timeout : Q;
  arg_passive_only : bool;
  arg_active_only : bool;
  arg_verbose : bool
}.

(** Truth value of an optional text: [None] and [''] are false. *)
Definition given (o : option string) : bool :=
  match o with
  | Some s => PyStr.nonempty s
  | None => false
  end.

(** Lines 166-172 *)
Definition run_passive (a : args) : bool := negb (arg_active_only a).
Definition run_active (a : args) : bool :=
  given (arg_wordlist a) && negb (arg_passive_only a).

(** [for sub in results: all_found_subdomains.add(sub)] *)
Definition add_all (results : list string) (all_found_subdomains : gset string)
  : gset string :=
  foldl (λ s sub, {[sub]} ∪ s) all_found_subdomains results.

(** [sorted(list(all_found_subdomains))]: strings compare by code point. *)
Definition sorted (l : list string) : list string := merge_sort String.le l.

(** The usage text [parser.print_help] writes. *)
Definition usage : string :=
  "usage: finder.py [-h] -d DOMAIN [-w WORDLIST] [-o OUTPUT] [-t THREADS] [--timeout TIMEOUT] [--passive-only] [--active-only] [-v]".

(** The line that confirms the copy to the output file (line 207). *)
Definition saved_message (path : string) : string :=
  PyStr.nl +:+ "Results saved to " +:+ path.

(** The report of an exception that nobody caught. *)
Definition traceback (e : exn) : string :=
  "Traceback (most recent call last): " +:+ exn_name e +:+ ": " +:+ exn_str e.

Section Main.
Context (E : env).

(** Lines 156-163: the two usage errors. *)
Definition check_usage (a : args) : M unit :=
  (if arg_passive_only a && arg_active_only a then
     print_error "Error: Cannot use --passive-only and --active-only together.";;
     raise (SystemExit 1)
   else mret ());;
  (if arg_active_only a && negb (given (arg_wordlist a)) then
     print_error "Error: --wordlist is required for --active-only mode.";;
     emit (Stderr usage);;
     raise (SystemExit 1)
   else mret ()).

(** Lines 175-192: both techniques fill [all_found_subdomains]. *)
Definition collect (a : args) : M (gset string) :=
  setdefaulttimeout (arg_timeout a);;
  after_passive ←
    (if run_passive a then
       crtsh_results ← fetch_crtsh_subdomains E (arg_domain a) (arg_verbose a);
       mret (add_all crtsh_results ∅)
     else mret ∅);
  if run_active a then
    match arg_wordlist a with
    | Some path =>
        if PyStr.nonempty path then
          bruteforce_results ←
            brute_force_subdomains E (arg_domain a) path (arg_threads a)
                                   (arg_timeout a) (arg_verbose a);
          mret (add_all bruteforce_results after_passive)
        else
          print_error "Warning: No wordlist provided. Skipping DNS brute-force. Use -w to specify one.";;
          mret after_passive
    | None =>
        print_error "Warning: No wordlist provided. Skipping DNS brute-force. Use -w to specify one.";;
        mret after_passive
    end
  else mret after_passive.

(** Lines 202-209: the optional copy to the [--output] file. *)
Definition save_results (a : args) (sorted_subdomains : list string) : M unit :=
  match arg_output a with
  | Some path =>
      if PyStr.nonempty path then
        try_except
          (emit (OpenWrite path);;
           lift (open_write E path);;
           for_each sorted_subdomains
                    (λ sub, emit (FileWrite path (sub +:+ PyStr.nl)));;
           print_always (saved_message path))
          (λ e,
             if is_IOError e then
               Some (print_error ("Error writing to output file " +:+ path
                                  +:+ ": " +:+ exn_str e))
             else None)
      else mret ()
  | None => mret ()
  end.

(** Lines 194-212 *)
Definition report (a : args) (all_found_subdomains : gset string) : M unit :=
  match elements all_found_subdomains with
  | [] =>
      print_always (PyStr.nl +:+ "No subdomains found for " +:+ arg_domain a +:+ ".")
  | _ :: _ =>
      print_always (PyStr.nl +:+ "--- Found " +:+ pretty (size all_found_subdomains)
                    +:+ " Unique Subdomain(s) ---");;
      let sorted_subdomains := sorted (elements all_found_subdomains) in
      for_each sorted_subdomains (λ sub, emit (Stdout sub));;
      save_results a sorted_subdomains
  end;;
  print_verbose ("Scan completed in " +:+ elapsed E +:+ " seconds.") (arg_verbose a).

Definition main (a : args) : M unit :=
  check_usage a;;
  all_found_subdomains ← collect a;
  report a all_found_subdomains.

(** Lines 215-220 *)
Definition dunder_main (a : args) : M unit :=
  try_except (main a)
    (λ e,
       match e with
       | KeyboardInterrupt =>
           Some (print_error (PyStr.nl +:+ "Process interrupted by user. Exiting.");;
                 raise (SystemExit 1))
       | _ => None
       end).

(** The interpreter around the script: [SystemExit] gives its code, any
    other exception that nobody caught is reported on the error stream
    and the status is 1. *)
Definition run_program (a : args) : Z * world :=
  match dunder_main a world0 with
  | (Ret _, w) => (0, w)
  | (Raise (SystemExit code), w) => (code, w)
  | (Raise e, w) =>
      (1, after w (Stderr (traceback e)))
  end.

End Main.

(* ===================================================================== *)
(** ** The worker steps without the trace *)
(* ===================================================================== *)

(** Whether a lookup under the default time-out [dt] makes
    [resolve_subdomain] return the name. *)
Definition resolves (E : env) (dt : option Q) (name : string) : bool :=
  match gethostbyname_ex E dt name with
  | Addresses _ _ (_ :: _) => true
  | _ => false
  end.

(** What [worker_step] does to the position and the shared objects. *)
Definition worker_next (E : env) (domain : string) (dt : option Q)
    (pc : worker_pc) (sh : shared) : worker_pc * shared :=
  match pc with
  | AtWhile =>
      match word_queue sh with
      | [] => (Returned, sh)
      | _ :: _ => (AtGet, sh)
      end
  | AtGet =>
      match word_queue sh with
      | [] => (Returned, sh)
      | word :: rest =>
          (AtResolve word,
           Shared rest (unfinished_tasks sh)
                  (found_subdomains_set sh) (results_list sh))
      end
  | AtResolve word =>
      if resolves E dt (subdomain_of domain word)
      then (AtMember (subdomain_of domain word), sh)
      else (AtTaskDone, sh)
  | AtMember subdomain =>
      if decide (subdomain ∈ found_subdomains_set sh)
      then (AtTaskDone, sh)
      else (AtAdd subdomain, sh)
  | AtAdd subdomain =>
      (AtAppend subdomain,
       Shared (word_queue sh) (unfinished_tasks sh)
              ({[subdomain]} ∪ found_subdomains_set sh) (results_list sh))
  | AtAppend subdomain =>
      (AtTaskDone,
       Shared (word_queue sh) (unfinished_tasks sh)
              (found_subdomains_set sh) (results_list sh ++ [subdomain]))
  | AtTaskDone =>
      (AtWhile,
       Shared (word_queue sh) (pred (unfinished_tasks sh))
              (found_subdomains_set sh) (results_list sh))
  | Returned => (Returned, sh)
  end.

Definition pool_next (E : env) (domain : string) (dt : option Q) (i : nat)
    (p : pool) : pool :=
  match p.1 !! i with
  | None => p
  | Some pc =>
      let '(pc', sh') := worker_next E domain dt pc p.2 in (<[i := pc']> p.1, sh')
  end.

Fixpoint pool_run (E : env) (domain : string) (dt : option Q)
    (sched : list nat) (p : pool) : pool :=
  match sched with
  | [] => p
  | i :: sched' => pool_run E domain dt sched' (pool_next E domain dt i p)
  end.

(** The name a worker holds that has not yet reached the set. *)
Definition held (domain : string) (pc : worker_pc) : list string :=
  match pc with
  | AtResolve word => [subdomain_of domain word]
  | AtMember subdomain | AtAdd subdomain => [subdomain]
  | _ => []
  end.

(** The name a worker has added to the set and not yet to the list. *)
Definition pending (pc : worker_pc) : list string :=
  match pc with
  | AtAppend subdomain => [subdomain]
  | _ => []
  end.

(** The name a worker holds that is known to resolve. *)
Definition resolved (pc : worker_pc) : list string :=
  match pc with
  | AtMember subdomain | AtAdd subdomain => [subdomain]
  | _ => []
  end.

(** How many steps a worker is from the top of its loop, at most. *)
Definition rank (pc : worker_pc) : nat :=
  match pc with
  | Returned => 0
  | AtGet => 1
  | AtWhile => 2
  | AtTaskDone => 3
  | AtAppend _ => 4
  | AtAdd _ => 5
  | AtMember _ => 6
  | AtResolve _ => 7
  end.

(** What bounds the steps worker [i] can still take on its own. *)
Definition weight (p : pool) (i : nat) : nat :=
  8 * length (word_queue p.2) + from_option rank 0%nat (p.1 !! i).

(** The names on their way to the set: those of the queued words and
    those the workers hold. *)
Definition in_flight (domain : string) (p : pool) : list string :=
  map (subdomain_of domain) (word_queue p.2) ++ flat_map (held domain) p.1.

(** The names that have been added to the set: those in the list and those
    about to be appended. *)
Definition added (p : pool) : list string :=
  results_list p.2 ++ flat_map pending p.1.

(** The names the workers hold that are known to resolve. *)
Definition known (p : pool) : list string := flat_map resolved p.1.

(** What one step does to the names: nothing; or a held name is found to
    resolve; or a held name is dropped, because it does not resolve or is
    in the set already; or a held name is added to the set. *)
Inductive step_effect (E : env) (domain : string) (dt : option Q)
    (p p' : pool) : Prop :=
  | effect_none :
      in_flight domain p' ≡ₚ in_flight domain p →
      known p' ≡ₚ known p →
      added p' ≡ₚ added p →
      found_subdomains_set p'.2 = found_subdomains_set p.2 →
      step_effect E domain dt p p'
  | effect_resolved (s : string) :
      in_flight domain p' ≡ₚ in_flight domain p →
      s ∈ in_flight domain p →
      resolves E dt s = true →
      known p' ≡ₚ s :: known p →
      added p' ≡ₚ added p →
      found_subdomains_set p'.2 = found_subdomains_set p.2 →
      step_effect E domain dt p p'
  | effect_dropped (s : string) :
      in_flight domain p ≡ₚ s :: in_flight domain p' →
      resolves E dt s = false ∨ s ∈ found_subdomains_set p.2 →
      (∀ x, x ∈ known p' → x ∈ known p) →
      added p' ≡ₚ added p →
      found_subdomains_set p'.2 = found_subdomains_set p.2 →
      step_effect E domain dt p p'
  | effect_added (s : string) :
      in_flight domain p ≡ₚ s :: in_flight domain p' →
      known p ≡ₚ s :: known p' →
      added p' ≡ₚ s :: added p →
      found_subdomains_set p'.2 = {[s]} ∪ found_subdomains_set p.2 →
      step_effect E domain dt p p'.

(** What holds of the pool at every moment of a run over [words]. *)
Record pool_inv (E : env) (domain : string) (dt : option Q)
    (words : list string) (p : pool) : Prop := PoolInv {
  inv_flight : ∀ s, s ∈ in_flight domain p →
                    ∃ word, word ∈ words ∧ s = subdomain_of domain word;
  inv_known : ∀ s, s ∈ known p → resolves E dt s = true;
  inv_sound : ∀ s, s ∈ found_subdomains_set p.2 →
                   (∃ word, word ∈ words ∧ s = subdomain_of domain word)
                   ∧ resolves E dt s = true;
  inv_added : ∀ s, s ∈ found_subdomains_set p.2 ↔ s ∈ added p;
  inv_complete : ∀ word, word ∈ words →
                         resolves E dt (subdomain_of domain word) = true →
                         subdomain_of domain word ∈ in_flight domain p
                         ∨ subdomain_of domain word ∈ found_subdomains_set p.2;
  inv_returned : Returned ∈ p.1 → word_queue p.2 = [];
  inv_length : (length (word_queue p.2) ≤ length words)%nat
}.

(** What holds in addition when no word occurs twice. *)
Record pool_distinct (domain : string) (p : pool) : Prop := PoolDistinct {
  distinct_flight : NoDup (in_flight domain p);
  distinct_fresh : ∀ s, s ∈ in_flight domain p → s ∉ found_subdomains_set p.2;
  distinct_added : NoDup (added p)
}.

(* ===================================================================== *)
(** ** Worlds and texts named in the statements *)
(* ===================================================================== *)

(** The world when the pool is about to be built (line 88). *)
Definition before_pool (domain path : string) (num_threads : Z) (verbose : bool)
    (words : list string) (w : world) : world :=
  logged verbose ("Loaded " +:+ pretty (length words) +:+ " words from wordlist.")
         (after (logged verbose (start_message domain num_threads) w)
                (OpenRead path)).

(** The world when the request to crt.sh has been sent (line 114). *)
Definition request_sent (domain : string) (verbose : bool) (w : world) : world :=
  after (logged verbose ("Fetching subdomains from crt.sh for " +:+ domain +:+ "...") w)
        (HttpGet (CRTSH_URL domain)).

(** The first line [report] prints (lines 195 and 197). *)
Definition banner (domain : string) (all_found_subdomains : gset string) : string :=
  match elements all_found_subdomains with
  | [] => PyStr.nl +:+ "No subdomains found for " +:+ domain +:+ "."
  | _ :: _ => PyStr.nl +:+ "--- Found " +:+ pretty (size all_found_subdomains)
              +:+ " Unique Subdomain(s) ---"
  end.

(** The condition in the words of the specification: not empty, the domain
    occurs in it, it is not the domain, and it does not begin with [*.]. *)
Definition kept (domain sub : string) : Prop :=
  sub ≠ ""
  ∧ (∃ a b, sub = a +:+ domain +:+ b)
  ∧ sub ≠ domain
  ∧ ¬ (∃ r, sub = "*." +:+ r).

(* ===================================================================== *)
(** ** Environments for examples *)
(* ===================================================================== *)



(** Every name resolves at once. *)
Definition all_resolve : option Q → string → lookup :=
  λ _ name, Addresses name [] ["192.0.2.1"].

(** An environment with one file [words.txt], no HTTP service, and the
    given resolver and schedule. *)
Definition sample_env (words_txt : string)
    (resolver : option Q → string → lookup) (sched : list nat) : env :=
  Env (λ path, if decide (path = "words.txt") then Ret words_txt
               else Raise (FileNotFoundError
                             ("[Errno 2] No such file or directory: '" +:+ path +:+ "'")))
      (λ _, Ret ())
      resolver
      (λ _, Raise (RequestException "connection refused"))
      sched
      "0.00".


(** The crt.sh name list of the example in the specification. *)
Definition example_name_value : string :=
  "a.example.com" +:+ PyStr.nl +:+ "*.example.com" +:+ PyStr.nl +:+ "example.com".

(** An environment whose crt.sh answers with the given entries. *)
Definition crtsh_env (data : list name_value_member) : env :=
  Env (λ _, Raise (FileNotFoundError "no such file"))
      (λ _, Ret ())
      all_resolve
      (λ _, Ret (Response (Ret ()) "" (Ret data)))
      []
      "0.00".

(** An environment in which both techniques succeed: crt.sh knows two
    names, the wordlist has two words and every name resolves. *)
Definition both_env : env :=
  Env (λ path, if decide (path = "words.txt")
               then Ret ("www" +:+ PyStr.nl +:+ "mail" +:+ PyStr.nl)
               else Raise (FileNotFoundError "no such file"))
      (λ _, Ret ())
      all_resolve
      (λ _, Ret (Response (Ret ()) ""
                   (Ret [TextMember ("a.example.com" +:+ PyStr.nl
                                     +:+ "www.example.com")])))
      []
      "0.00".


(** An environment in which everything outside fails: no file can be
    read or written and crt.sh answers as given. *)
Definition failing_env (crtsh : outcome response) : env :=
  Env (λ path, if decide (path = "locked.txt")
               then Raise (OSError "[Errno 13] Permission denied: 'locked.txt'")
               else Raise (FileNotFoundError "[Errno 2] No such file or directory"))
      (λ _, Raise (OSError "[Errno 13] Permission denied"))
      all_resolve
      (λ _, crtsh)
      []
      "0.00".

(** A wordlist that names [www] twice. *)
Definition www_twice : string := "www" +:+ PyStr.nl +:+ "www" +:+ PyStr.nl.

(** Two workers, each about to offer the same name (line 54), nothing
    found so far. *)
Definition two_offers (subdomain : string) : list worker_pc * shared :=
  ([AtMember subdomain; AtMember subdomain], Shared [] 2 ∅ []).

(** The shared objects after the given interleaving. *)
Definition offers_after (sched : list nat) (subdomain : string) : shared :=
  match run_schedule (sample_env "" all_resolve []) "example.com" 2 false sched
                     (two_offers subdomain) world0 with
  | (Ret p, _) => p.2
  | (Raise _, _) => Shared [] 0 ∅ []
  end.

(* ===================================================================== *)
(** ** Three claims as the specification words them *)
(* ===================================================================== *)

(** The claim as the specification words it: no candidate is enqueued twice. *)
Definition each_candidate_enqueued_once : Prop :=
  ∀ file_text : string, NoDup (wordlist_words file_text).

(** The claim as the specification words it: a count of zero or less
    gives what a count of one gives. *)
Definition nonpositive_count_runs_as_one : Prop :=
  ∀ (E : env) (domain path : string) (num_threads : Z) (timeout : Q)
    (verbose : bool) (w : world),
    num_threads ≤ 0 →
    (brute_force_subdomains E domain path num_threads timeout verbose w).1
    = (brute_force_subdomains E domain path 1 timeout verbose w).1.


(* ===================================================================== *)
(** ** What a computation may put on the trace *)
(* ===================================================================== *)

(** [m] only appends events, each of the kind [P], and leaves the
    process-wide time-out as it is, whether it returns or raises. *)
Definition emits {A} (P : event → bool) (m : M A) : Prop :=
  ∀ w, ∃ evs, (m w).2 = World (trace w ++ evs) (defaulttimeout w)
              ∧ forallb P evs = true.

(** The events of the brute-force engine: the wordlist is opened, workers
    are submitted, names are looked up, and trace lines go to the error
    stream when [verbose]. *)
Definition engine_event (verbose : bool) (e : event) : bool :=
  match e with
  | OpenRead _ | Submit _ | DnsQuery _ => true
  | Stderr _ => verbose
  | _ => false
  end.

(** The events of the passive fetch. *)
Definition fetch_event (verbose : bool) (e : event) : bool :=
  match e with
  | HttpGet _ => true
  | Stderr _ => verbose
  | _ => false
  end.

(** The events of the final report. *)
Definition report_event (verbose : bool) (e : event) : bool :=
  match e with
  | Stdout _ | OpenWrite _ | FileWrite _ _ => true
  | Stderr _ => verbose
  | _ => false
  end.

(** The events of a whole run after the time-out is set: those of the
    techniques that run, and those of the report. *)
Definition run_event (a : args) (e : event) : bool :=
  run_passive a && fetch_event (arg_verbose a) e
  || run_active a && engine_event (arg_verbose a) e
  || report_event (arg_verbose a) e.

(** Lines 156-163 let the run go on. *)
Definition usage_ok (a : args) : bool :=
  negb (arg_passive_only a && arg_active_only a)
  && negb (arg_active_only a && negb (given (arg_wordlist a))).

(** The names looked up, in the order of the lookups. *)
Definition queried (t : list event) : list string :=
  omap (λ e, match e with DnsQuery name => Some name | _ => None end) t.

(** The name a worker has taken from the queue and not yet looked up. *)
Definition taken (domain : string) (pc : worker_pc) : list string :=
  match pc with
  | AtResolve word => [subdomain_of domain word]
  | _ => []
  end.

(** The names still to be looked up: those of the queued words and those
    the workers have taken. *)
Definition waiting (domain : string) (p : pool) : list string :=
  map (subdomain_of domain) (word_queue p.2) ++ flat_map (taken domain) p.1.

(** A worker between [get_nowait] and [task_done] counts once. *)
Definition busy (pc : worker_pc) : list unit :=
  match pc with
  | AtResolve _ | AtMember _ | AtAdd _ | AtAppend _ | AtTaskDone => [()]
  | _ => []
  end.

(** The number of words taken from the queue whose [task_done] is still
    to come. *)
Definition in_progress (p : pool) : nat := length (flat_map busy p.1).

(** The pool with which [run_pool] ends. *)
Definition final_pool (E : env) (domain : string) (dt : option Q)
    (words : list string) (n : nat) : pool :=
  pool_run E domain dt (schedule E ++ completion_schedule n (length words))
           (initial_pool words n).

Definition is_http (e : event) : bool :=
  match e with HttpGet _ => true | _ => false end.
Definition is_open_read (e : event) : bool :=
  match e with OpenRead _ => true | _ => false end.
Definition is_open_write (e : event) : bool :=
  match e with OpenWrite _ | FileWrite _ _ => true | _ => false end.

(** An event of active discovery: the wordlist, a worker or a lookup. *)
Definition is_active (e : event) : bool :=
  is_open_read e || is_submit e || is_dns e.

(** Every character of the text is white space ([''] included). *)
Fixpoint all_space (s : string) : bool :=
  match s with
  | "" => true
  | String c r => PyStr.isspace c && all_space r
  end.

(** The resolver of the specification's example: [www] and [mail] have an
    address, nothing else has. *)
Definition www_and_mail : option Q → string → lookup :=
  λ _ name,
    if decide (name = "www.example.com") then Addresses name [] ["192.0.2.1"]
    else if decide (name = "mail.example.com") then Addresses name [] ["192.0.2.2"]
    else gaierror "[Errno -2] Name or service not known".

(** A wordlist with the three words of that example. *)
Definition three_words : string :=
  "www" +:+ PyStr.nl +:+ "mail" +:+ PyStr.nl +:+ "bogus123xyz" +:+ PyStr.nl.

(* ===================================================================== *)
(** * Properties *)
(* ===================================================================== *)

(** ** Text operations *)

Section PyStrFacts.
Import PyStr.

Lemma app_cons (c : ascii) (s t : string) :
  String c s +:+ t = String c (s +:+ t).
Proof. reflexivity. Qed.

Lemma app_empty_l (s : string) : "" +:+ s = s.
Proof. reflexivity. Qed.

Lemma nonempty_true (s : string) : nonempty s = true ↔ s ≠ "".
Proof. destruct s; simpl; split; intros; congruence. Qed.

Lemma startswith_spec (p s : string) :
  startswith p s = true ↔ ∃ r, s = p +:+ r.
Proof.
  revert s. induction p as [|a p IH]; intros s; simpl.
  - split; [intros _; by exists s | done].
  - destruct s as [|b s].
    + split; [done | intros [r Hr]; discriminate Hr].
    + destruct (decide (a = b)) as [->|Hne].
      * rewrite IH. split; intros [r Hr]; exists r.
        -- by rewrite app_cons, <- Hr.
        -- rewrite app_cons in Hr. by injection Hr.
      * split; [done | intros [r Hr]].
        rewrite app_cons in Hr. injection Hr as ? ?. congruence.
Qed.

Lemma contains_unfold (needle hay : string) :
  contains needle hay =
    startswith needle hay
    || match hay with "" => false | String _ hay' => contains needle hay' end.
Proof. by destruct hay. Qed.

Lemma contains_spec (needle hay : string) :
  contains needle hay = true ↔ ∃ a b, hay = a +:+ needle +:+ b.
Proof.
  split.
  - induction hay as [|c hay IH]; rewrite contains_unfold;
      intros [Hs|Hc]%orb_true_iff.
    + apply startswith_spec in Hs as [r ->]. by exists "", r.
    + done.
    + apply startswith_spec in Hs as [r ->]. by exists "", r.
    + destruct (IH Hc) as (a & b & ->). by exists (String c a), b.
  - intros (a & b & ->). induction a as [|c a IH].
    + rewrite app_empty_l, contains_unfold.
      apply orb_true_iff. left. apply startswith_spec. by exists b.
    + rewrite app_cons, contains_unfold. apply orb_true_iff. by right.
Qed.

Lemma rstrip_idemp (s : string) : rstrip (rstrip s) = rstrip s.
Proof.
  induction s as [|c s IH]; [done|]. simpl.
  destruct (rstrip s) as [|c' r'] eqn:Hr.
  - destruct (isspace c) eqn:Hc; simpl; [done|]. by rewrite Hc.
  - change (rstrip (String c (String c' r'))) with
      (match rstrip (String c' r') with
       | "" => if isspace c then "" else String c ""
       | r'' => String c r''
       end).
    by rewrite IH.
Qed.

Lemma lstrip_fixed (s : string) :
  lstrip s = s ↔ match s with "" => True | String c _ => isspace c = false end.
Proof.
  destruct s as [|c s]; simpl; [done|].
  destruct (isspace c) eqn:Hc; [|done].
  split; [|done]. intros Heq.
  assert (Hlen : ∀ t, (String.length (lstrip t) ≤ String.length t)%nat).
  { induction t as [|d t IHt]; simpl; [lia|]. destruct (isspace d); simpl; lia. }
  specialize (Hlen s). rewrite Heq in Hlen. simpl in Hlen. lia.
Qed.

Lemma rstrip_head (c : ascii) (s : string) :
  isspace c = false → ∃ r, rstrip (String c s) = String c r.
Proof.
  intros Hc. simpl. destruct (rstrip s); rewrite ?Hc; eauto.
Qed.

Lemma lstrip_head (s : string) :
  match lstrip s with "" => True | String c _ => isspace c = false end.
Proof.
  induction s as [|c s IH]; simpl; [done|].
  destruct (isspace c) eqn:Hc; [done | by simpl].
Qed.

(** A stripped text has no white space left at either end. *)
Lemma strip_trimmed (s : string) :
  lstrip (strip s) = strip s ∧ rstrip (strip s) = strip s.
Proof.
  unfold strip. split; [|apply rstrip_idemp].
  apply lstrip_fixed. pose proof (lstrip_head s) as Hh.
  destruct (lstrip s) as [|c r]; [done|].
  destruct (rstrip_head c r Hh) as [r' ->]. done.
Qed.

Lemma strip_idemp (s : string) : strip (strip s) = strip s.
Proof.
  destruct (strip_trimmed s) as [Hl Hr]. unfold strip at 1. by rewrite Hl, Hr.
Qed.

End PyStrFacts.

(** ** Running the monad *)

Lemma bind_ret {A B} (m : M A) (f : A → M B) (w w' : world) (a : A) :
  m w = (Ret a, w') → (m ≫= f) w = f a w'.
Proof. intros H. unfold mbind, M_bind. by rewrite H. Qed.

Lemma bind_raise {A B} (m : M A) (f : A → M B) (w w' : world) (e : exn) :
  m w = (Raise e, w') → (m ≫= f) w = (Raise e, w').
Proof. intros H. unfold mbind, M_bind. by rewrite H. Qed.

Lemma bind_assoc {A B C} (m : M A) (f : A → M B) (g : B → M C) (w : world) :
  ((m ≫= f) ≫= g) w = (m ≫= (λ x, f x ≫= g)) w.
Proof. unfold mbind, M_bind. by destruct (m w) as [[a|e] w']. Qed.

Lemma emit_eq (e : event) (w : world) : emit e w = (Ret (), after w e).
Proof. reflexivity. Qed.

(** ** Argument binding and [print_message] *)

Lemma bind_positional_names (ps : list param) (pos : list pyval) :
  (bind_positional ps pos).1.*1 = ps.*1.
Proof.
  revert pos. induction ps as [|[x d] ps IH]; intros [|v pos]; simpl; try done.
  - f_equal. clear IH. induction ps as [|[y d'] ps IH]; simpl; [done | by f_equal].
  - specialize (IH pos). destruct (bind_positional ps pos) as [bs extra].
    simpl in *. by f_equal.
Qed.

Lemma bind_keyword_names fname bs k v bs' :
  bind_keyword fname bs k v = Ret bs' → bs'.*1 = bs.*1.
Proof.
  revert bs'. induction bs as [|[x o] bs IH]; intros bs'; simpl; [done|].
  destruct (decide (x = k)) as [->|Hne].
  - destruct o; [done|]. intros [= <-]. done.
  - destruct (bind_keyword fname bs k v) as [bs''|e]; [|done].
    intros [= <-]. simpl. f_equal. by apply IH.
Qed.

Lemma bind_keyword_raises fname bs k v e :
  bind_keyword fname bs k v = Raise e → is_TypeError e = true.
Proof.
  induction bs as [|[x o] bs IH]; simpl.
  - by intros [= <-].
  - destruct (decide (x = k)).
    + destruct o; [|done]. by intros [= <-].
    + destruct (bind_keyword fname bs k v); [done|]. intros [= <-]. by apply IH.
Qed.

Lemma bind_keyword_unknown fname bs k v :
  k ∉ bs.*1 → ∃ msg, bind_keyword fname bs k v = Raise (TypeError msg).
Proof.
  induction bs as [|[x o] bs IH]; simpl; intros Hk; [eauto|].
  apply not_elem_of_cons in Hk as [Hne Hk].
  destruct (decide (x = k)) as [->|_]; [done|].
  destruct (IH Hk) as [msg ->]. eauto.
Qed.

Lemma bind_keywords_unknown fname bs kw k :
  k ∈ kw.*1 → k ∉ bs.*1 → ∃ msg, bind_keywords fname bs kw = Raise (TypeError msg).
Proof.
  revert bs. induction kw as [|[k' v] kw IH]; intros bs Hin Hout; simpl in *.
  { by apply elem_of_nil in Hin. }
  destruct (bind_keyword fname bs k' v) as [bs'|e] eqn:Hb.
  - apply elem_of_cons in Hin as [->|Hin].
    + destruct (bind_keyword_unknown fname bs k' v Hout) as [msg Hmsg]. congruence.
    + apply IH; [done|]. by rewrite (bind_keyword_names _ _ _ _ _ Hb).
  - apply bind_keyword_raises in Hb. destruct e; try done. eauto.
Qed.

Lemma bind_args_unknown_keyword fname ps pos kw k :
  k ∈ kw.*1 → k ∉ ps.*1 → ∃ msg, bind_args fname ps pos kw = Raise (TypeError msg).
Proof.
  intros Hin Hout. unfold bind_args.
  pose proof (bind_positional_names ps pos) as Hn.
  destruct (bind_positional ps pos) as [bs extra]. simpl in Hn.
  destruct (bind_keywords_unknown fname bs kw k) as [msg ->]; [done| |eauto].
  by rewrite Hn.
Qed.

Lemma print_error_raises (msg : string) (w : world) :
  print_error msg w = (Raise (TypeError unexpected_file), w).
Proof. reflexivity. Qed.

Lemma print_verbose_eq (msg : string) (verbose : bool) (w : world) :
  print_verbose msg verbose w = (Ret (), logged verbose msg w).
Proof. by destruct verbose. Qed.

Lemma print_always_eq (msg : string) (w : world) :
  print_always msg w = (Ret (), after w (Stdout msg)).
Proof. reflexivity. Qed.

Lemma logged_defaulttimeout verbose msg w :
  defaulttimeout (logged verbose msg w) = defaulttimeout w.
Proof. by destruct verbose. Qed.

Lemma logged_stdout verbose msg w :
  stdout_of (logged verbose msg w) = stdout_of w.
Proof.
  destruct verbose; [|done]. unfold stdout_of. simpl.
  by rewrite omap_app, app_nil_r.
Qed.

Lemma logged_filter (P : event → bool) verbose msg w :
  P (Stderr ("[*] " +:+ msg)) = false →
  List.filter P (trace (logged verbose msg w)) = List.filter P (trace w).
Proof.
  intros HP. destruct verbose; [|done]. simpl.
  by rewrite List.filter_app; simpl; rewrite HP, app_nil_r.
Qed.

(** ** The wordlist cannot be read *)

Lemma load_wordlist_unreadable (E : env) (path : string) (verbose : bool)
    (w : world) (e : exn) :
  read_text E path = Raise e → is_Exception e = true →
  load_wordlist E path verbose w
  = (Raise (TypeError unexpected_file), after w (OpenRead path)).
Proof.
  intros Hread Hexc. unfold load_wordlist, try_except.
  rewrite (bind_ret _ _ w (after w (OpenRead path)) ()) by apply emit_eq.
  rewrite (bind_raise _ _ _ (after w (OpenRead path)) e)
    by (unfold lift; by rewrite Hread).
  destruct e; try discriminate Hexc; reflexivity.
Qed.

Lemma brute_force_unreadable (E : env) (domain path : string) (num_threads : Z)
    (timeout : Q) (verbose : bool) (w : world) (e : exn) :
  read_text E path = Raise e → is_Exception e = true →
  brute_force_subdomains E domain path num_threads timeout verbose w
  = (Raise (TypeError unexpected_file),
     after (logged verbose (start_message domain num_threads) w) (OpenRead path)).
Proof.
  intros Hread Hexc. unfold brute_force_subdomains.
  rewrite (bind_ret _ _ w _ ()) by apply print_verbose_eq.
  apply bind_raise. by eapply load_wordlist_unreadable.
Qed.

(** C1 (the code departs from the claim): when the wordlist cannot be opened
    or read, [brute_force_subdomains] submits no worker and makes no DNS
    query, but it does not return the empty list: the call that should
    report the problem passes [file=sys.stderr] to [print_message], and the
    function ends with that TypeError. *)
Theorem C1_unreadable_wordlist_raises (E : env) (domain path : string)
    (num_threads : Z) (timeout : Q) (verbose : bool) (w : world) (e : exn) :
  read_text E path = Raise e → is_Exception e = true →
  let r := brute_force_subdomains E domain path num_threads timeout verbose w in
  r.1 = Raise (TypeError unexpected_file)
  ∧ r.1 ≠ Ret []
  ∧ List.filter is_submit (trace r.2) = List.filter is_submit (trace w)
  ∧ List.filter is_dns (trace r.2) = List.filter is_dns (trace w)
  ∧ stdout_of r.2 = stdout_of w.
Proof.
  intros Hread Hexc r. subst r.
  rewrite (brute_force_unreadable E domain path num_threads timeout verbose w e)
    by done.
  simpl. repeat split; try done.
  - rewrite List.filter_app. simpl. rewrite app_nil_r. by apply logged_filter.
  - rewrite List.filter_app. simpl. rewrite app_nil_r. by apply logged_filter.
  - unfold stdout_of. simpl. rewrite omap_app. simpl. rewrite app_nil_r.
    apply logged_stdout.
Qed.

Lemma C1_unreadable_wordlist_raises_witness :
  let E := sample_env "www" all_resolve [] in
  let r := brute_force_subdomains E "example.com" "missing.txt" 10 2 false world0 in
  r.1 = Raise (TypeError unexpected_file)
  ∧ r.1 ≠ Ret []
  ∧ List.filter is_submit (trace r.2) = List.filter is_submit (trace world0)
  ∧ List.filter is_dns (trace r.2) = List.filter is_dns (trace world0)
  ∧ stdout_of r.2 = stdout_of world0.
Proof.
  intros E.
  apply (C1_unreadable_wordlist_raises E "example.com" "missing.txt" 10 2 false
           world0
           (FileNotFoundError "[Errno 2] No such file or directory: 'missing.txt'"));
    reflexivity.
Defined.

(** ** The wordlist can be read *)

Lemma load_wordlist_words (E : env) (path file_text : string) (verbose : bool)
    (w : world) :
  read_text E path = Ret file_text → wordlist_words file_text ≠ [] →
  load_wordlist E path verbose w
  = (Ret (Some (wordlist_words file_text)), after w (OpenRead path)).
Proof.
  intros Hread Hne. unfold load_wordlist, try_except.
  rewrite (bind_ret _ _ w (after w (OpenRead path)) ()) by apply emit_eq.
  rewrite (bind_ret _ _ _ (after w (OpenRead path)) file_text)
    by (unfold lift; by rewrite Hread).
  by destruct (wordlist_words file_text).
Qed.

Lemma load_wordlist_blank (E : env) (path file_text : string) (verbose : bool)
    (w : world) :
  read_text E path = Ret file_text → wordlist_words file_text = [] →
  load_wordlist E path verbose w
  = (Ret None,
     logged verbose "Wordlist is empty or contains only whitespace."
            (after w (OpenRead path))).
Proof.
  intros Hread Hnil. unfold load_wordlist, try_except.
  rewrite (bind_ret _ _ w (after w (OpenRead path)) ()) by apply emit_eq.
  rewrite (bind_ret _ _ _ (after w (OpenRead path)) file_text)
    by (unfold lift; by rewrite Hread).
  rewrite Hnil.
  by rewrite (bind_ret _ _ _ _ ()) by apply print_verbose_eq.
Qed.

Lemma brute_force_loaded (E : env) (domain path file_text : string)
    (num_threads : Z) (timeout : Q) (verbose : bool) (w : world) :
  read_text E path = Ret file_text → wordlist_words file_text ≠ [] →
  brute_force_subdomains E domain path num_threads timeout verbose w
  = (results ← run_pool E domain (wordlist_words file_text) num_threads
                        timeout verbose;
     print_verbose "DNS brute-force scan complete." verbose;;
     mret results)
      (before_pool domain path num_threads verbose (wordlist_words file_text) w).
Proof.
  intros Hread Hne. unfold brute_force_subdomains.
  rewrite (bind_ret _ _ w _ ()) by apply print_verbose_eq.
  erewrite bind_ret by (by apply load_wordlist_words).
  cbv beta iota.
  by rewrite (bind_ret _ _ _ _ ()) by apply print_verbose_eq.
Qed.

Lemma before_pool_filter (P : event → bool) domain path num_threads verbose words w :
  (∀ msg, P (Stderr msg) = false) → P (OpenRead path) = false →
  List.filter P (trace (before_pool domain path num_threads verbose words w))
  = List.filter P (trace w).
Proof.
  intros Herr Hopen. unfold before_pool.
  rewrite logged_filter by apply Herr. simpl.
  rewrite List.filter_app. simpl. rewrite Hopen, app_nil_r.
  apply logged_filter, Herr.
Qed.

(** ** A worker count that is not positive *)

(** C3 as worded fails: with the one-word wordlist a count of 0 ends in
    ValueError while a count of 1 returns the subdomain. *)
Lemma C3_counterexample : ¬ nonpositive_count_runs_as_one.
Proof.
  intros H.
  specialize (H (sample_env "www" all_resolve []) "example.com" "words.txt"
                0 2%Q false world0).
  vm_compute in H. specialize (H ltac:(discriminate)). discriminate H.
Qed.

(** C3 (amended): a worker count of zero or less is not turned into one.
    With a wordlist that has at least one non-blank line the executor
    rejects the count: the engine ends with ValueError, submits no worker
    and makes no DNS query.  With a wordlist that has none, the engine has
    returned the empty list before the count is looked at. *)
Theorem C3_nonpositive_count_rejected (E : env) (domain path file_text : string)
    (num_threads : Z) (timeout : Q) (verbose : bool) (w : world) :
  num_threads ≤ 0 → read_text E path = Ret file_text →
  let r := brute_force_subdomains E domain path num_threads timeout verbose w in
  (wordlist_words file_text ≠ [] →
     r.1 = Raise (ValueError "max_workers must be greater than 0"))
  ∧ (wordlist_words file_text = [] → r.1 = Ret [])
  ∧ List.filter is_submit (trace r.2) = List.filter is_submit (trace w)
  ∧ List.filter is_dns (trace r.2) = List.filter is_dns (trace w).
Proof.
  intros Hn Hread r. subst r.
  destruct (decide (wordlist_words file_text = [])) as [Hnil|Hne].
  - assert (Hrun : brute_force_subdomains E domain path num_threads timeout verbose w
             = (Ret [],
                logged verbose "Wordlist is empty or contains only whitespace."
                  (after (logged verbose (start_message domain num_threads) w)
                         (OpenRead path)))).
    { unfold brute_force_subdomains.
      rewrite (bind_ret _ _ w _ ()) by apply print_verbose_eq.
      by rewrite (bind_ret _ _ _ _ _ (load_wordlist_blank E path file_text verbose
                                        _ Hread Hnil)). }
    rewrite Hrun. simpl. repeat split; try done.
    + rewrite logged_filter by done. simpl. rewrite List.filter_app. simpl.
      rewrite app_nil_r. by apply logged_filter.
    + rewrite logged_filter by done. simpl. rewrite List.filter_app. simpl.
      rewrite app_nil_r. by apply logged_filter.
  - rewrite (brute_force_loaded E domain path file_text) by done.
    assert (Hpool : ∀ w', run_pool E domain (wordlist_words file_text) num_threads
                            timeout verbose w'
                          = (Raise (ValueError "max_workers must be greater than 0"), w')).
    { intros w'. unfold run_pool. by destruct (decide (num_threads ≤ 0)). }
    rewrite (bind_raise _ _ _ _ _ (Hpool _)). simpl.
    repeat split; try done; by apply before_pool_filter.
Qed.

Lemma C3_nonpositive_count_rejected_witness :
  let E := sample_env "www" all_resolve [] in
  let r := brute_force_subdomains E "example.com" "words.txt" (-3) 2 true world0 in
  (wordlist_words "www" ≠ [] →
     r.1 = Raise (ValueError "max_workers must be greater than 0"))
  ∧ (wordlist_words "www" = [] → r.1 = Ret [])
  ∧ List.filter is_submit (trace r.2) = List.filter is_submit (trace world0)
  ∧ List.filter is_dns (trace r.2) = List.filter is_dns (trace world0).
Proof.
  intros E.
  apply (C3_nonpositive_count_rejected E "example.com" "words.txt" "www" (-3) 2
           true world0); [lia | reflexivity].
Defined.

(** ** What is put on the queue *)

(** C2 as worded fails: a wordlist with [www] on two lines enqueues it
    twice. *)
Lemma C2_counterexample : ¬ each_candidate_enqueued_once.
Proof.
  intros H. specialize (H ("www" +:+ PyStr.nl +:+ "www" +:+ PyStr.nl)).
  change (NoDup ["www"; "www"]) in H.
  apply NoDup_cons in H as [Hin _]. apply Hin. by left.
Qed.

Lemma stripped_words_elem (lines : list string) (word : string) :
  word ∈ map PyStr.strip
            (List.filter (λ line, PyStr.nonempty (PyStr.strip line)) lines)
  ↔ word ≠ "" ∧ ∃ line, line ∈ lines ∧ PyStr.strip line = word.
Proof.
  rewrite list_elem_of_In, in_map_iff. split.
  - intros (line & <- & [Hin Hne]%filter_In).
    split; [by apply nonempty_true|]. exists line. by rewrite list_elem_of_In.
  - intros (Hne & line & Hin & <-). exists line. split; [done|].
    apply filter_In. split; [by apply list_elem_of_In | by apply nonempty_true].
Qed.

Lemma stripped_words_count (lines : list string) (word : string) :
  word ≠ "" →
  length (filter (λ x, x = word)
            (map PyStr.strip
               (List.filter (λ line, PyStr.nonempty (PyStr.strip line)) lines)))
  = length (filter (λ line, PyStr.strip line = word) lines).
Proof.
  intros Hne. induction lines as [|line lines IH]; [done|]. simpl.
  rewrite (filter_cons (λ line, PyStr.strip line = word)).
  destruct (PyStr.nonempty (PyStr.strip line)) eqn:Hl; simpl.
  - rewrite (filter_cons (λ x, x = word)).
    destruct (decide (PyStr.strip line = word)); simpl; by rewrite IH.
  - destruct (decide (PyStr.strip line = word)) as [Heq|_]; [|done].
    rewrite Heq in Hl. exfalso. apply Hne. by destruct word.
Qed.

(** C2 (amended): the queue is filled with the lines of the wordlist, each
    trimmed of surrounding white space, blank ones left out, in file order;
    a word that several lines give is enqueued once for each of them. *)
Theorem C2_queue_is_trimmed_nonblank_lines (file_text : string) :
  let lines := PyStr.iter_lines (PyStr.universal_newlines file_text) in
  let words := wordlist_words file_text in
  (∀ word, word ∈ words ↔
           word ≠ "" ∧ ∃ line, line ∈ lines ∧ PyStr.strip line = word)
  ∧ (∀ word, word ∈ words →
             PyStr.lstrip word = word ∧ PyStr.rstrip word = word)
  ∧ (∀ word, word ≠ "" →
             length (filter (λ x, x = word) words)
             = length (filter (λ line, PyStr.strip line = word) lines))
  ∧ (∀ (E : env) (path : string) (verbose : bool) (w : world),
       read_text E path = Ret file_text → words ≠ [] →
       (load_wordlist E path verbose w).1 = Ret (Some words)).
Proof.
  intros lines words. split; [|split; [|split]].
  - intros word. apply stripped_words_elem.
  - intros word Hin.
    apply stripped_words_elem in Hin as (_ & line & _ & <-). apply strip_trimmed.
  - intros word Hne. by apply stripped_words_count.
  - intros E path verbose w Hread Hne.
    by rewrite (load_wordlist_words E path file_text).
Qed.

Lemma C2_queue_is_trimmed_nonblank_lines_witness :
  let file_text := "www" +:+ PyStr.nl +:+ "  mail " +:+ PyStr.nl +:+ PyStr.nl
                   +:+ "www" in
  let E := sample_env file_text all_resolve [] in
  wordlist_words file_text = ["www"; "mail"; "www"]
  ∧ (load_wordlist E "words.txt" false world0).1 = Ret (Some ["www"; "mail"; "www"]).
Proof.
  intros file_text E. split; [reflexivity|].
  apply (C2_queue_is_trimmed_nonblank_lines file_text); [reflexivity | discriminate].
Defined.

(** ** The resolver and its time-out *)





(** ** Which names the passive fetcher keeps *)

Lemma is_kept_spec (domain sub : string) :
  is_kept domain sub = true ↔ kept domain sub.
Proof.
  unfold is_kept, kept.
  rewrite !andb_true_iff, !negb_true_iff, nonempty_true, contains_spec.
  rewrite bool_decide_eq_false.
  assert (PyStr.startswith "*." sub = false ↔ ¬ (∃ r, sub = "*." +:+ r)) as ->.
  { rewrite <- startswith_spec. by destruct (PyStr.startswith "*." sub). }
  tauto.
Qed.

Lemma scan_pieces_elem (domain : string) (pieces : list string)
    (found : gset string) (sub : string) :
  sub ∈ foldl (λ found piece,
                 let sub := PyStr.strip piece in
                 if is_kept domain sub then {[sub]} ∪ found else found)
              found pieces
  ↔ sub ∈ found
    ∨ ∃ piece, piece ∈ pieces ∧ PyStr.strip piece = sub ∧ kept domain sub.
Proof.
  revert found. induction pieces as [|p pieces IH]; intros found; simpl.
  - split; [by left | intros [?|(? & []%elem_of_nil & _)]; done].
  - rewrite IH. destruct (is_kept domain (PyStr.strip p)) eqn:Hk.
    + apply is_kept_spec in Hk. rewrite elem_of_union, elem_of_singleton. split.
      * intros [[->|Hin]|(piece & Hin & Heq & Hkept)].
        -- right. exists p. split; [by left | done].
        -- by left.
        -- right. exists piece. split; [by right | done].
      * intros [Hin|(piece & [->|Hin]%elem_of_cons & Heq & Hkept)].
        -- left. by right.
        -- left. by left.
        -- right. by exists piece.
    + split.
      * intros [Hin|(piece & Hin & Heq & Hkept)]; [by left|].
        right. exists piece. split; [by right | done].
      * intros [Hin|(piece & [->|Hin]%elem_of_cons & Heq & Hkept)].
        -- by left.
        -- apply is_kept_spec in Hkept. congruence.
        -- right. by exists piece.
Qed.

Lemma scan_name_value_elem (domain name_value : string) (found : gset string)
    (sub : string) :
  sub ∈ scan_name_value domain name_value found
  ↔ sub ∈ found
    ∨ ∃ piece, piece ∈ PyStr.split_nl name_value
               ∧ PyStr.strip piece = sub ∧ kept domain sub.
Proof. apply scan_pieces_elem. Qed.

Lemma scan_entries_elem (domain : string) (data : list name_value_member)
    (found : gset string) (sub : string) :
  NonTextMember ∉ data →
  (scan_entries domain data found).2 = None
  ∧ (sub ∈ (scan_entries domain data found).1
     ↔ sub ∈ found
       ∨ ∃ name_value piece,
           TextMember name_value ∈ data
           ∧ piece ∈ PyStr.split_nl name_value
           ∧ PyStr.strip piece = sub ∧ kept domain sub).
Proof.
  revert found. induction data as [|entry data IH]; intros found Hnt; simpl.
  - split; [done|]. split; [by left|].
    intros [?|(? & ? & []%elem_of_nil & _)]; done.
  - apply not_elem_of_cons in Hnt as [Hhd Htl].
    destruct entry as [|name_value|]; [| |done].
    + destruct (IH (scan_name_value domain "" found) Htl) as [-> ->].
      split; [done|]. rewrite scan_name_value_elem. split.
      * intros [[Hin|(piece & Hp & Heq & Hk)]|(nv & piece & Hin & Hrest)].
        -- by left.
        -- apply list_elem_of_singleton in Hp as ->.
           destruct Hk as [Hne _]. by rewrite <- Heq in Hne.
        -- right. exists nv, piece. split; [by right | done].
      * intros [Hin|(nv & piece & [?|Hin]%elem_of_cons & Hrest)]; [|done|].
        -- left. by left.
        -- right. by exists nv, piece.
    + destruct (IH (scan_name_value domain name_value found) Htl) as [-> ->].
      split; [done|]. rewrite scan_name_value_elem. split.
      * intros [[Hin|(piece & Hp & Heq & Hk)]|(nv & piece & Hin & Hrest)].
        -- by left.
        -- right. exists name_value, piece. split; [by left | done].
        -- right. exists nv, piece. split; [by right | done].
      * intros [Hin|(nv & piece & [[= ->]|Hin]%elem_of_cons & Hrest)].
        -- left. by left.
        -- left. right. by exists piece.
        -- right. by exists nv, piece.
Qed.

(** C6: the passive fetcher keeps a name of a [name_value] exactly when the
    trimmed name is not empty, contains the domain, is not the domain and
    does not begin with [*.]; the list it returns holds each kept name
    once; the example of the specification gives the one name
    [a.example.com]. *)
Theorem C6_passive_filter :
  (∀ (domain name_value : string) (found : gset string) (sub : string),
     sub ∈ scan_name_value domain name_value found
     ↔ sub ∈ found
       ∨ ∃ piece, piece ∈ PyStr.split_nl name_value
                  ∧ PyStr.strip piece = sub ∧ kept domain sub)
  ∧ (∀ (E : env) (domain : string) (verbose : bool) (w : world)
       (resp : response) (data : list name_value_member),
       requests_get E (CRTSH_URL domain) = Ret resp →
       raise_for_status resp = Ret () →
       json resp = Ret data →
       NonTextMember ∉ data →
       ∃ names,
         (fetch_crtsh_subdomains E domain verbose w).1 = Ret names
         ∧ NoDup names
         ∧ ∀ sub, sub ∈ names
                  ↔ ∃ name_value piece,
                      TextMember name_value ∈ data
                      ∧ piece ∈ PyStr.split_nl name_value
                      ∧ PyStr.strip piece = sub ∧ kept domain sub)
  ∧ scan_name_value "example.com" example_name_value ∅ = {["a.example.com"]}
  ∧ (fetch_crtsh_subdomains (crtsh_env [TextMember example_name_value])
                            "example.com" false world0).1
    = Ret ["a.example.com"].
Proof.
  split; [apply scan_name_value_elem|]. split; [|split].
  2: { rewrite <- (list_to_set_elements_L (scan_name_value _ _ _)).
       replace (elements (scan_name_value "example.com" example_name_value ∅))
         with ["a.example.com"] by (vm_compute; reflexivity).
       apply union_empty_r_L. }
  2: { vm_compute. reflexivity. }
  intros E domain verbose w resp data Hget Hstatus Hjson Hnt.
  destruct (scan_entries domain data ∅) as [found err] eqn:Hscan.
  exists (elements found).
  pose proof (λ sub, scan_entries_elem domain data ∅ sub Hnt) as Hspec.
  rewrite Hscan in Hspec. simpl in Hspec.
  assert (err = None) as -> by apply (Hspec "").
  split; [|split].
  - unfold fetch_crtsh_subdomains.
    rewrite (bind_ret _ _ w _ ()) by apply print_verbose_eq.
    rewrite (bind_ret _ _ _ _ ()) by apply emit_eq.
    unfold crtsh_try_body. rewrite Hget, Hstatus, Hjson, Hscan.
    rewrite (bind_ret _ _ _ _ ()) by reflexivity.
    by rewrite (bind_ret _ _ _ _ ()) by apply print_verbose_eq.
  - apply NoDup_elements.
  - intros sub. rewrite elem_of_elements.
    destruct (Hspec sub) as [_ ->]. split; [|by right].
    intros [[]%not_elem_of_empty|H]; done.
Qed.

Lemma C6_passive_filter_witness :
  ∃ names,
    (fetch_crtsh_subdomains (crtsh_env [TextMember example_name_value; NoMember])
                            "example.com" true world0).1 = Ret names
    ∧ NoDup names
    ∧ ∀ sub, sub ∈ names
             ↔ ∃ name_value piece,
                 TextMember name_value ∈ [TextMember example_name_value; NoMember]
                 ∧ piece ∈ PyStr.split_nl name_value
                 ∧ PyStr.strip piece = sub ∧ kept "example.com" sub.
Proof.
  apply (proj1 (proj2 C6_passive_filter)
           (crtsh_env [TextMember example_name_value; NoMember]) "example.com"
           true world0
           (Response (Ret ()) "" (Ret [TextMember example_name_value; NoMember]))
           [TextMember example_name_value; NoMember]); try reflexivity.
  intros [[=]|[[=]|[]%elem_of_nil]%elem_of_cons]%elem_of_cons.
Defined.

(** ** Merging, sorting and printing the results *)

Lemma add_all_elem (results : list string) (s : gset string) (x : string) :
  x ∈ add_all results s ↔ x ∈ results ∨ x ∈ s.
Proof.
  unfold add_all. revert s. induction results as [|r results IH]; intros s; simpl.
  - split; [by right | intros [[]%elem_of_nil|]; done].
  - rewrite IH, elem_of_union, elem_of_singleton, elem_of_cons. tauto.
Qed.


Lemma for_each_emit {A} (f : A → event) (l : list A) (w : world) :
  for_each l (λ x, emit (f x)) w
  = (Ret (), World (trace w ++ map f l) (defaulttimeout w)).
Proof.
  revert w. induction l as [|x l IH]; intros w; simpl.
  - unfold mret, M_ret. rewrite app_nil_r. by destruct w.
  - rewrite (bind_ret _ _ w _ ()) by apply emit_eq.
    rewrite IH. simpl. by rewrite <- app_assoc.
Qed.











(** ** Calls that pass [file=sys.stderr] *)

Lemma print_message_file_keyword (pos : list pyval) (kw : list (string * pyval))
    (w : world) :
  "file" ∈ kw.*1 → ∃ msg, print_message pos kw w = (Raise (TypeError msg), w).
Proof.
  intros Hin. unfold print_message.
  destruct (bind_args_unknown_keyword "print_message" print_message_params
              pos kw "file" Hin) as [msg ->]; [|by exists msg].
  intros [[=]|[[=]|[[=]|[]%elem_of_nil]%elem_of_cons]%elem_of_cons]%elem_of_cons.
Qed.

Lemma fetch_failure (E : env) (domain : string) (verbose : bool) (w : world)
    (found : gset string) (resp : option response) (e : exn) :
  crtsh_try_body E domain = (found, resp, Some e) →
  is_Exception e = true →
  (∀ msg, e = ValueError msg → resp ≠ None) →
  fetch_crtsh_subdomains E domain verbose w
  = (Raise (TypeError unexpected_file), request_sent domain verbose w).
Proof.
  intros Hbody Hexc Hbound. unfold fetch_crtsh_subdomains.
  rewrite (bind_ret _ _ w _ ()) by apply print_verbose_eq.
  rewrite (bind_ret _ _ _ _ ()) by apply emit_eq.
  rewrite Hbody. cbv iota beta. apply bind_raise.
  destruct e; try discriminate Hexc; try apply print_error_raises.
  destruct resp as [r|]; [apply print_error_raises|].
  by destruct (Hbound msg).
Qed.

Lemma usage_error_both (E : env) (a : args) (w : world) :
  arg_passive_only a = true → arg_active_only a = true →
  main E a w = (Raise (TypeError unexpected_file), w).
Proof.
  intros Hp Ha. unfold main, check_usage. rewrite Hp, Ha. reflexivity.
Qed.

Lemma usage_error_no_wordlist (E : env) (a : args) (w : world) :
  arg_active_only a = true → given (arg_wordlist a) = false →
  main E a w = (Raise (TypeError unexpected_file), w).
Proof.
  intros Ha Hw. unfold main, check_usage. rewrite Ha, Hw.
  by destruct (arg_passive_only a).
Qed.

Lemma save_results_failure (E : env) (a : args) (path : string)
    (lines : list string) (w : world) (e : exn) :
  arg_output a = Some path → PyStr.nonempty path = true →
  open_write E path = Raise e → is_IOError e = true →
  save_results E a lines w
  = (Raise (TypeError unexpected_file), after w (OpenWrite path)).
Proof.
  intros Ho Hne Hopen Hio. unfold save_results, try_except. rewrite Ho, Hne.
  rewrite (bind_ret _ _ w _ ()) by apply emit_eq.
  rewrite (bind_raise _ _ _ (after w (OpenWrite path)) e)
    by (unfold lift; by rewrite Hopen).
  by rewrite Hio.
Qed.

Lemma interrupt_handler (E : env) (a : args) (w w' : world) :
  main E a w = (Raise KeyboardInterrupt, w') →
  dunder_main E a w = (Raise (TypeError unexpected_file), w').
Proof. intros Hm. unfold dunder_main, try_except. by rewrite Hm. Qed.

Lemma scan_entries_stops (domain : string) (data : list name_value_member)
    (found : gset string) :
  NonTextMember ∈ data →
  ∃ found', scan_entries domain data found
            = (found', Some (AttributeError "object has no attribute 'split'")).
Proof.
  revert found. induction data as [|entry data IH]; intros found Hin.
  { by apply elem_of_nil in Hin. }
  destruct entry as [|name_value|]; simpl.
  - apply elem_of_cons in Hin as [[=]|Hin]. by apply IH.
  - apply elem_of_cons in Hin as [[=]|Hin]. by apply IH.
  - by exists found.
Qed.

(** C10: a call of [print_message] with a [file] keyword raises TypeError
    and prints nothing, whatever else is passed.  So does every path that
    reports through such a call: the wordlist that is missing or cannot be
    read; the crt.sh request that fails, answers with an error status,
    cannot be parsed or has an entry that is not text; the two usage
    errors; the output file that cannot be written; and the handler of the
    keyboard interrupt. *)
Theorem C10_file_keyword_raises (E : env) :
  (∀ pos kw w, "file" ∈ kw.*1 →
     ∃ msg, print_message pos kw w = (Raise (TypeError msg), w))
  ∧ (∀ domain path num_threads timeout verbose w e,
       read_text E path = Raise e → is_Exception e = true →
       brute_force_subdomains E domain path num_threads timeout verbose w
       = (Raise (TypeError unexpected_file),
          after (logged verbose (start_message domain num_threads) w)
                (OpenRead path)))
  ∧ (∀ domain verbose w msg,
       requests_get E (CRTSH_URL domain) = Raise (RequestException msg) →
       fetch_crtsh_subdomains E domain verbose w
       = (Raise (TypeError unexpected_file), request_sent domain verbose w))
  ∧ (∀ domain verbose w resp msg,
       requests_get E (CRTSH_URL domain) = Ret resp →
       raise_for_status resp = Raise (RequestException msg) →
       fetch_crtsh_subdomains E domain verbose w
       = (Raise (TypeError unexpected_file), request_sent domain verbose w))
  ∧ (∀ domain verbose w resp msg,
       requests_get E (CRTSH_URL domain) = Ret resp →
       raise_for_status resp = Ret () →
       json resp = Raise (ValueError msg) →
       fetch_crtsh_subdomains E domain verbose w
       = (Raise (TypeError unexpected_file), request_sent domain verbose w))
  ∧ (∀ domain verbose w resp data,
       requests_get E (CRTSH_URL domain) = Ret resp →
       raise_for_status resp = Ret () →
       json resp = Ret data →
       NonTextMember ∈ data →
       fetch_crtsh_subdomains E domain verbose w
       = (Raise (TypeError unexpected_file), request_sent domain verbose w))
  ∧ (∀ a w, arg_passive_only a = true → arg_active_only a = true →
       main E a w = (Raise (TypeError unexpected_file), w))
  ∧ (∀ a w, arg_active_only a = true → given (arg_wordlist a) = false →
       main E a w = (Raise (TypeError unexpected_file), w))
  ∧ (∀ a path lines w e,
       arg_output a = Some path → PyStr.nonempty path = true →
       open_write E path = Raise e → is_IOError e = true →
       save_results E a lines w
       = (Raise (TypeError unexpected_file), after w (OpenWrite path)))
  ∧ (∀ a w w', main E a w = (Raise KeyboardInterrupt, w') →
       dunder_main E a w = (Raise (TypeError unexpected_file), w')).
Proof.
  repeat apply conj.
  - apply print_message_file_keyword.
  - intros. by eapply brute_force_unreadable.
  - intros domain verbose w msg Hget.
    apply (fetch_failure E domain verbose w ∅ None (RequestException msg));
      [unfold crtsh_try_body; by rewrite Hget | done | done].
  - intros domain verbose w resp msg Hget Hst.
    apply (fetch_failure E domain verbose w ∅ (Some resp) (RequestException msg));
      [unfold crtsh_try_body; by rewrite Hget, Hst | done | done].
  - intros domain verbose w resp msg Hget Hst Hjson.
    apply (fetch_failure E domain verbose w ∅ (Some resp) (ValueError msg));
      [unfold crtsh_try_body; by rewrite Hget, Hst, Hjson | done | done].
  - intros domain verbose w resp data Hget Hst Hjson Hin.
    destruct (scan_entries_stops domain data ∅ Hin) as [found Hscan].
    apply (fetch_failure E domain verbose w found (Some resp)
             (AttributeError "object has no attribute 'split'"));
      [unfold crtsh_try_body; by rewrite Hget, Hst, Hjson, Hscan | done | done].
  - intros. by apply usage_error_both.
  - intros. by apply usage_error_no_wordlist.
  - intros. by eapply save_results_failure.
  - intros. by apply interrupt_handler.
Qed.

Lemma C10_file_keyword_raises_witness :
  let refused := failing_env (Raise (RequestException "connection refused")) in
  let status500 := failing_env (Ret (Response (Raise (RequestException "500 Server Error"))
                                              "" (Ret []))) in
  let not_json := failing_env (Ret (Response (Ret ()) "<html>"
                                             (Raise (ValueError "Expecting value")))) in
  let interrupted := failing_env (Raise KeyboardInterrupt) in
  let not_text := failing_env (Ret (Response (Ret ()) "[{}]"
                                             (Ret [TextMember "a.example.com";
                                                   NonTextMember]))) in
  (∃ msg, print_message [PStr "x"; PBool true]
                        [("is_verbose_msg", PBool true); ("file", PStderr)] world0
          = (Raise (TypeError msg), world0))
  ∧ (brute_force_subdomains refused "example.com" "missing.txt" 10 2 false world0).1
    = Raise (TypeError unexpected_file)
  ∧ (brute_force_subdomains refused "example.com" "locked.txt" 10 2 false world0).1
    = Raise (TypeError unexpected_file)
  ∧ (fetch_crtsh_subdomains refused "example.com" false world0).1
    = Raise (TypeError unexpected_file)
  ∧ (fetch_crtsh_subdomains status500 "example.com" false world0).1
    = Raise (TypeError unexpected_file)
  ∧ (fetch_crtsh_subdomains not_json "example.com" false world0).1
    = Raise (TypeError unexpected_file)
  ∧ (fetch_crtsh_subdomains not_text "example.com" false world0).1
    = Raise (TypeError unexpected_file)
  ∧ (main refused (Args "example.com" None None 10 2 true true false) world0).1
    = Raise (TypeError unexpected_file)
  ∧ (main refused (Args "example.com" None None 10 2 false true false) world0).1
    = Raise (TypeError unexpected_file)
  ∧ (save_results refused (Args "example.com" None (Some "out.txt") 10 2 false false false)
                  ["a.example.com"] world0).1
    = Raise (TypeError unexpected_file)
  ∧ (dunder_main interrupted (Args "example.com" None None 10 2 false false false)
                 world0).1
    = Raise (TypeError unexpected_file).
Proof.
  intros refused status500 not_json interrupted not_text.
  destruct (C10_file_keyword_raises refused)
    as (Hcall & Hwords & Hget & _ & _ & _ & Hboth & Hactive & Hsave & _).
  destruct (C10_file_keyword_raises status500) as (_ & _ & _ & Hstatus & _).
  destruct (C10_file_keyword_raises not_json) as (_ & _ & _ & _ & Hjson & _).
  destruct (C10_file_keyword_raises interrupted)
    as (_ & _ & _ & _ & _ & _ & _ & _ & _ & Hint).
  destruct (C10_file_keyword_raises not_text) as (_ & _ & _ & _ & _ & Htext & _).
  split.
  { apply Hcall. change ("file" ∈ ["is_verbose_msg"; "file"]).
    apply elem_of_cons. right. apply elem_of_cons. by left. }
  split.
  { by rewrite (Hwords "example.com" "missing.txt" 10 2%Q false world0
                       (FileNotFoundError "[Errno 2] No such file or directory")). }
  split.
  { by rewrite (Hwords "example.com" "locked.txt" 10 2%Q false world0
                       (OSError "[Errno 13] Permission denied: 'locked.txt'")). }
  split.
  { by rewrite (Hget "example.com" false world0 "connection refused"). }
  split.
  { by rewrite (Hstatus "example.com" false world0 _ "500 Server Error"
                        eq_refl eq_refl). }
  split.
  { by rewrite (Hjson "example.com" false world0 _ "Expecting value"
                      eq_refl eq_refl eq_refl). }
  split.
  { rewrite (Htext "example.com" false world0 _ [TextMember "a.example.com";
                                                  NonTextMember]
                   eq_refl eq_refl eq_refl); [done|].
    apply elem_of_cons. right. apply elem_of_cons. by left. }
  split; [by rewrite Hboth|].
  split; [by rewrite Hactive|].
  split.
  { by rewrite (Hsave _ "out.txt" _ world0 (OSError "[Errno 13] Permission denied")). }
  by rewrite (Hint _ world0 (World [SetDefaultTimeout 2; HttpGet (CRTSH_URL "example.com")]
                                   (Some 2%Q))).
Defined.

(** ** Both mode flags at once *)

(** C8 (the code departs from the claim): with both [--passive-only] and
    [--active-only] no request and no lookup is made and the status is 1,
    but not through the usage error: the call that should print it raises
    TypeError, [sys.exit(1)] is never reached, and what the error stream
    gets is the report of the uncaught TypeError. *)
Theorem C8_conflicting_flags_raise (E : env) (a : args) :
  arg_passive_only a = true → arg_active_only a = true →
  main E a world0 = (Raise (TypeError unexpected_file), world0)
  ∧ main E a world0 ≠ (Raise (SystemExit 1), world0)
  ∧ run_program E a
    = (1, World [Stderr (traceback (TypeError unexpected_file))] None)
  ∧ ("Error: Cannot use --passive-only and --active-only together."
     ∉ stderr_of (run_program E a).2)
  ∧ List.filter is_network (trace (run_program E a).2) = [].
Proof.
  intros Hp Ha.
  assert (Hmain := usage_error_both E a world0 Hp Ha).
  assert (Hrun : run_program E a
                 = (1, World [Stderr (traceback (TypeError unexpected_file))] None)).
  { unfold run_program, dunder_main, try_except. by rewrite Hmain. }
  rewrite Hrun, Hmain. repeat split; try done.
  intros [[=]|[]%elem_of_nil]%elem_of_cons.
Qed.

Lemma C8_conflicting_flags_raise_witness :
  run_program both_env
    (Args "example.com" (Some "words.txt") None 10 2 true true false)
  = (1, World [Stderr (traceback (TypeError unexpected_file))] None).
Proof.
  apply (C8_conflicting_flags_raise both_env
           (Args "example.com" (Some "words.txt") None 10 2 true true false));
    reflexivity.
Defined.

(** ** The engine under every schedule *)

Section EngineFacts.
Context (E : env) (domain : string) (timeout : Q) (verbose : bool).

Lemma resolve_subdomain_pure (name : string) (w : world) :
  ∃ w', resolve_subdomain E name timeout verbose w
        = (Ret (if resolves E (defaulttimeout w) name then Some name else None), w')
        ∧ defaulttimeout w' = defaulttimeout w.
Proof.
  unfold resolve_subdomain, resolves.
  rewrite (bind_ret _ _ w w (defaulttimeout w)) by reflexivity.
  rewrite (bind_ret _ _ w _ ()) by apply emit_eq.
  destruct (gethostbyname_ex E (defaulttimeout w) name) as [h al [|ip0 ips]|m|m|m];
    rewrite (bind_ret _ _ _ _ ()) by apply print_verbose_eq;
    eexists; (split; [reflexivity|]); by rewrite logged_defaulttimeout.
Qed.

Lemma worker_step_pure (pc : worker_pc) (sh : shared) (w : world) :
  ∃ w', worker_step E domain timeout verbose pc sh w
        = (Ret (worker_next E domain (defaulttimeout w) pc sh), w')
        ∧ defaulttimeout w' = defaulttimeout w.
Proof.
  destruct pc; simpl; try (by exists w).
  - destruct (word_queue sh); by exists w.
  - destruct (word_queue sh); by exists w.
  - destruct (resolve_subdomain_pure (subdomain_of domain word) w) as (w' & Hr & Hd).
    exists w'. split; [|done]. rewrite (bind_ret _ _ _ _ _ Hr).
    by destruct (resolves E (defaulttimeout w) (subdomain_of domain word)).
  - destruct (decide (subdomain ∈ found_subdomains_set sh)); by exists w.
Qed.

Lemma pool_step_pure (i : nat) (p : pool) (w : world) :
  ∃ w', pool_step E domain timeout verbose i p w
        = (Ret (pool_next E domain (defaulttimeout w) i p), w')
        ∧ defaulttimeout w' = defaulttimeout w.
Proof.
  unfold pool_step, pool_next. destruct (p.1 !! i) as [pc|]; [|by exists w].
  destruct (worker_step_pure pc p.2 w) as (w' & Hs & Hd).
  exists w'. split; [|done]. rewrite (bind_ret _ _ _ _ _ Hs).
  by destruct (worker_next E domain (defaulttimeout w) pc p.2).
Qed.

Lemma run_schedule_pure (sched : list nat) (p : pool) (w : world) :
  ∃ w', run_schedule E domain timeout verbose sched p w
        = (Ret (pool_run E domain (defaulttimeout w) sched p), w')
        ∧ defaulttimeout w' = defaulttimeout w.
Proof.
  revert p w. induction sched as [|i sched IH]; intros p w; simpl; [by exists w|].
  destruct (pool_step_pure i p w) as (w1 & Hs & Hd1).
  destruct (IH (pool_next E domain (defaulttimeout w) i p) w1) as (w2 & Hr & Hd2).
  exists w2. rewrite (bind_ret _ _ _ _ _ Hs), Hr, Hd1. split; [done | congruence].
Qed.

End EngineFacts.

(** *** Replacing one worker's position *)

Lemma flat_map_insert {A B} (f : A → list B) (l : list A) (i : nat) (x y : A) :
  l !! i = Some y →
  ∃ rest, flat_map f l ≡ₚ f y ++ rest ∧ flat_map f (<[i:=x]> l) ≡ₚ f x ++ rest.
Proof.
  intros Hi. exists (flat_map f (take i l) ++ flat_map f (drop (S i) l)).
  assert (Hlt : (i < length l)%nat) by (by eapply lookup_lt_Some).
  split.
  - rewrite <- (take_drop_middle l i y Hi) at 1.
    rewrite flat_map_app. simpl. by rewrite Permutation_app_swap_app.
  - rewrite insert_take_drop by done.
    rewrite flat_map_app. simpl. by rewrite Permutation_app_swap_app.
Qed.

Lemma elem_of_insert_inv {A} (l : list A) (i : nat) (x y : A) :
  y ∈ <[i:=x]> l → y = x ∨ y ∈ l.
Proof.
  intros (j & Hj)%list_elem_of_lookup.
  destruct (decide (i = j)) as [->|Hne].
  - left. destruct (decide (j < length l)%nat) as [Hlt|Hge].
    + rewrite list_lookup_insert_eq in Hj by done. congruence.
    + rewrite list_insert_ge in Hj by lia.
      apply lookup_lt_Some in Hj. lia.
  - right. rewrite list_lookup_insert_ne in Hj by done.
    by eapply list_elem_of_lookup_2.
Qed.

(** *** What one step does *)

Section Preservation.
Context (E : env) (domain : string) (dt : option Q).

Lemma replaced_lists (pcs : list worker_pc) (i : nat) (pc pc' : worker_pc) :
  pcs !! i = Some pc →
  ∃ resth restk restp,
    flat_map (held domain) pcs ≡ₚ held domain pc ++ resth
    ∧ flat_map (held domain) (<[i:=pc']> pcs) ≡ₚ held domain pc' ++ resth
    ∧ flat_map resolved pcs ≡ₚ resolved pc ++ restk
    ∧ flat_map resolved (<[i:=pc']> pcs) ≡ₚ resolved pc' ++ restk
    ∧ flat_map pending pcs ≡ₚ pending pc ++ restp
    ∧ flat_map pending (<[i:=pc']> pcs) ≡ₚ pending pc' ++ restp.
Proof.
  intros Hi.
  destruct (flat_map_insert (held domain) pcs i pc' pc Hi) as (resth & Hh1 & Hh2).
  destruct (flat_map_insert resolved pcs i pc' pc Hi) as (restk & Hk1 & Hk2).
  destruct (flat_map_insert pending pcs i pc' pc Hi) as (restp & Hp1 & Hp2).
  by exists resth, restk, restp.
Qed.

Lemma pool_next_effect (i : nat) (p : pool) :
  step_effect E domain dt p (pool_next E domain dt i p).
Proof.
  unfold pool_next. destruct p as [pcs sh]. simpl.
  destruct (pcs !! i) as [pc|] eqn:Hi; [|by apply effect_none].
  destruct pc as [| |word|s|s|s| |]; simpl.
  - (* line 46 *)
    destruct (word_queue sh) as [|w q] eqn:Hq;
      [destruct (replaced_lists pcs i AtWhile Returned Hi)
         as (resth & restk & restp & Hh1 & Hh2 & Hk1 & Hk2 & Hp1 & Hp2)
      |destruct (replaced_lists pcs i AtWhile AtGet Hi)
         as (resth & restk & restp & Hh1 & Hh2 & Hk1 & Hk2 & Hp1 & Hp2)];
      apply effect_none; unfold in_flight, added, known; simpl;
      by rewrite ?Hh1, ?Hh2, ?Hk1, ?Hk2, ?Hp1, ?Hp2.
  - (* line 48 *)
    destruct (word_queue sh) as [|w q] eqn:Hq.
    + destruct (replaced_lists pcs i AtGet Returned Hi)
        as (resth & restk & restp & Hh1 & Hh2 & Hk1 & Hk2 & Hp1 & Hp2).
      apply effect_none; unfold in_flight, added, known; simpl;
        by rewrite ?Hq, ?Hh1, ?Hh2, ?Hk1, ?Hk2, ?Hp1, ?Hp2.
    + destruct (replaced_lists pcs i AtGet (AtResolve w) Hi)
        as (resth & restk & restp & Hh1 & Hh2 & Hk1 & Hk2 & Hp1 & Hp2).
      apply effect_none; unfold in_flight, added, known; simpl;
        rewrite ?Hq, ?Hh1, ?Hh2, ?Hk1, ?Hk2, ?Hp1, ?Hp2; simpl; try done.
      by rewrite <- Permutation_middle.
  - (* lines 52-53 *)
    destruct (resolves E dt (subdomain_of domain word)) eqn:Hres.
    + destruct (replaced_lists pcs i (AtResolve word)
                  (AtMember (subdomain_of domain word)) Hi)
        as (resth & restk & restp & Hh1 & Hh2 & Hk1 & Hk2 & Hp1 & Hp2).
      apply (effect_resolved _ _ _ _ _ (subdomain_of domain word));
        unfold in_flight, added, known; simpl;
        rewrite ?Hh1, ?Hh2, ?Hk1, ?Hk2, ?Hp1, ?Hp2; simpl; try done.
      apply elem_of_app. right. by left.
    + destruct (replaced_lists pcs i (AtResolve word) AtTaskDone Hi)
        as (resth & restk & restp & Hh1 & Hh2 & Hk1 & Hk2 & Hp1 & Hp2).
      apply (effect_dropped _ _ _ _ _ (subdomain_of domain word));
        unfold in_flight, added, known; simpl;
        rewrite ?Hh1, ?Hh2, ?Hk1, ?Hk2, ?Hp1, ?Hp2; simpl; try done.
      * by rewrite <- Permutation_middle.
      * by left.
      * intros x. by rewrite Hk1, Hk2.
  - (* line 54 *)
    destruct (decide (s ∈ found_subdomains_set sh)) as [Hin|Hout].
    + destruct (replaced_lists pcs i (AtMember s) AtTaskDone Hi)
        as (resth & restk & restp & Hh1 & Hh2 & Hk1 & Hk2 & Hp1 & Hp2).
      apply (effect_dropped _ _ _ _ _ s);
        unfold in_flight, added, known; simpl;
        rewrite ?Hh1, ?Hh2, ?Hk1, ?Hk2, ?Hp1, ?Hp2; simpl; try done.
      * by rewrite <- Permutation_middle.
      * by right.
      * intros x. rewrite Hk1, Hk2. simpl. by right.
    + destruct (replaced_lists pcs i (AtMember s) (AtAdd s) Hi)
        as (resth & restk & restp & Hh1 & Hh2 & Hk1 & Hk2 & Hp1 & Hp2).
      apply effect_none; unfold in_flight, added, known; simpl;
        by rewrite ?Hh1, ?Hh2, ?Hk1, ?Hk2, ?Hp1, ?Hp2.
  - (* line 55 *)
    destruct (replaced_lists pcs i (AtAdd s) (AtAppend s) Hi)
      as (resth & restk & restp & Hh1 & Hh2 & Hk1 & Hk2 & Hp1 & Hp2).
    apply (effect_added _ _ _ _ _ s);
      unfold in_flight, added, known; simpl;
      rewrite ?Hh1, ?Hh2, ?Hk1, ?Hk2, ?Hp1, ?Hp2; simpl; try done.
    + by rewrite <- Permutation_middle.
    + by rewrite <- Permutation_middle.
  - (* line 56 *)
    destruct (replaced_lists pcs i (AtAppend s) AtTaskDone Hi)
      as (resth & restk & restp & Hh1 & Hh2 & Hk1 & Hk2 & Hp1 & Hp2).
    apply effect_none; unfold in_flight, added, known; simpl;
      rewrite ?Hh1, ?Hh2, ?Hk1, ?Hk2, ?Hp1, ?Hp2; simpl; try done.
    by rewrite <- app_assoc.
  - (* line 57 *)
    destruct (replaced_lists pcs i AtTaskDone AtWhile Hi)
      as (resth & restk & restp & Hh1 & Hh2 & Hk1 & Hk2 & Hp1 & Hp2).
    apply effect_none; unfold in_flight, added, known; simpl;
      by rewrite ?Hh1, ?Hh2, ?Hk1, ?Hk2, ?Hp1, ?Hp2.
  - rewrite list_insert_id by done. by apply effect_none.
Qed.

Lemma pool_next_queue (i : nat) (p : pool) :
  (length (word_queue (pool_next E domain dt i p).2) ≤ length (word_queue p.2))%nat
  ∧ (Returned ∈ (pool_next E domain dt i p).1 →
     Returned ∈ p.1 ∨ word_queue p.2 = []).
Proof.
  unfold pool_next. destruct p as [pcs sh]. simpl.
  destruct (pcs !! i) as [pc|] eqn:Hi; [|by split; [|left]].
  destruct pc as [| |word|s|s|s| |]; simpl.
  - destruct (word_queue sh) as [|w q] eqn:Hq; simpl; rewrite ?Hq;
      (split; [simpl; lia|]).
    + intros _. by right.
    + intros [[=]|Hin]%elem_of_insert_inv. by left.
  - destruct (word_queue sh) as [|w q] eqn:Hq; simpl; rewrite ?Hq;
      (split; [simpl; lia|]).
    + intros _. by right.
    + intros [[=]|Hin]%elem_of_insert_inv. by left.
  - destruct (resolves E dt (subdomain_of domain word)); simpl; (split; [lia|]);
      intros [[=]|Hin]%elem_of_insert_inv; by left.
  - destruct (decide (s ∈ found_subdomains_set sh)); simpl; (split; [lia|]);
      intros [[=]|Hin]%elem_of_insert_inv; by left.
  - split; [lia|]. intros [[=]|Hin]%elem_of_insert_inv. by left.
  - split; [lia|]. intros [[=]|Hin]%elem_of_insert_inv. by left.
  - split; [lia|]. intros [[=]|Hin]%elem_of_insert_inv. by left.
  - split; [lia|]. intros [_|Hin]%elem_of_insert_inv; left; [|done].
    by eapply list_elem_of_lookup_2.
Qed.

Lemma pool_next_inv (words : list string) (i : nat) (p : pool) :
  pool_inv E domain dt words p →
  pool_inv E domain dt words (pool_next E domain dt i p).
Proof.
  intros [Hf Hk Hs Ha Hc Hret Hlen].
  destruct (pool_next_queue i p) as [Hq Hr].
  assert (Hlen' : (length (word_queue (pool_next E domain dt i p).2)
                   ≤ length words)%nat) by lia.
  assert (Hret' : Returned ∈ (pool_next E domain dt i p).1 →
                  word_queue (pool_next E domain dt i p).2 = []).
  { intros Hin. apply length_zero_iff_nil.
    destruct (Hr Hin) as [Hold|Hnil]; [rewrite (Hret Hold) in Hq|rewrite Hnil in Hq];
      simpl in Hq; lia. }
  destruct (pool_next_effect i p) as [HF HK HA HS|s HF Hin Hrs HK HA HS
                                     |s HF Hwhy HK HA HS|s HF HK HA HS];
    constructor; try done.
  - intros x. rewrite HF. apply Hf.
  - intros x. rewrite HK. apply Hk.
  - intros x. rewrite HS. apply Hs.
  - intros x. by rewrite HS, HA.
  - intros w Hw Hres. rewrite HF, HS. by apply Hc.
  - intros x. rewrite HF. apply Hf.
  - intros x. rewrite HK. intros [->|Hx]%elem_of_cons; [done | by apply Hk].
  - intros x. rewrite HS. apply Hs.
  - intros x. by rewrite HS, HA.
  - intros w Hw Hres. rewrite HF, HS. by apply Hc.
  - intros x Hx. apply Hf. rewrite HF. by right.
  - intros x Hx. by apply Hk, HK.
  - intros x. rewrite HS. apply Hs.
  - intros x. by rewrite HS, HA.
  - intros w Hw Hres. rewrite HS.
    destruct (Hc w Hw Hres) as [Hin|Hin]; [|by right].
    rewrite HF in Hin. apply elem_of_cons in Hin as [Heq|Hin]; [|by left].
    right. rewrite Heq in Hres. destruct Hwhy as [Hno|Hyes]; [congruence|].
    by rewrite Heq.
  - intros x Hx. apply Hf. rewrite HF. by right.
  - intros x Hx. apply Hk. rewrite HK. by right.
  - intros x. rewrite HS, elem_of_union, elem_of_singleton.
    intros [->|Hx]; [|by apply Hs]. split.
    + apply Hf. rewrite HF. by left.
    + apply Hk. rewrite HK. by left.
  - intros x. rewrite HS, HA, elem_of_union, elem_of_singleton, elem_of_cons.
    by rewrite Ha.
  - intros w Hw Hres. rewrite HS, elem_of_union, elem_of_singleton.
    destruct (Hc w Hw Hres) as [Hin|Hin]; [|by right; right].
    rewrite HF in Hin. apply elem_of_cons in Hin as [Heq|Hin]; [|by left].
    right. by left.
Qed.

Lemma pool_next_distinct (words : list string) (i : nat) (p : pool) :
  pool_inv E domain dt words p → pool_distinct domain p →
  pool_distinct domain (pool_next E domain dt i p).
Proof.
  intros [Hf Hk Hs Ha Hc Hret Hlen] [Dn Df Da].
  destruct (pool_next_effect i p) as [HF HK HA HS|s HF Hin Hrs HK HA HS
                                     |s HF Hwhy HK HA HS|s HF HK HA HS];
    constructor.
  - by rewrite HF.
  - intros x. rewrite HF, HS. apply Df.
  - by rewrite HA.
  - by rewrite HF.
  - intros x. rewrite HF, HS. apply Df.
  - by rewrite HA.
  - rewrite HF in Dn. by apply NoDup_cons in Dn as [_ Dn].
  - intros x Hx. rewrite HS. apply Df. rewrite HF. by right.
  - by rewrite HA.
  - rewrite HF in Dn. by apply NoDup_cons in Dn as [_ Dn].
  - intros x Hx. rewrite HS, elem_of_union, elem_of_singleton.
    intros [->|Hin].
    + rewrite HF in Dn. by apply NoDup_cons in Dn as [Hns _].
    + apply (Df x); [|done]. rewrite HF. by right.
  - rewrite HA. apply NoDup_cons. split; [|done].
    rewrite <- Ha. apply Df. rewrite HF. by left.
Qed.

Lemma pool_run_inv (words : list string) (sched : list nat) (p : pool) :
  pool_inv E domain dt words p →
  pool_inv E domain dt words (pool_run E domain dt sched p).
Proof.
  revert p. induction sched as [|i sched IH]; intros p Hp; simpl; [done|].
  by apply IH, pool_next_inv.
Qed.

Lemma pool_run_distinct (words : list string) (sched : list nat) (p : pool) :
  pool_inv E domain dt words p → pool_distinct domain p →
  pool_distinct domain (pool_run E domain dt sched p).
Proof.
  revert p. induction sched as [|i sched IH]; intros p Hp Hd; simpl; [done|].
  apply IH; [by apply pool_next_inv | by eapply pool_next_distinct].
Qed.

End Preservation.

(** *** The pool at the start *)

Lemma length_app_string (s t : string) :
  String.length (s +:+ t) = (String.length s + String.length t)%nat.
Proof. induction s as [|c s IH]; [done|]. rewrite app_cons. simpl. by rewrite IH. Qed.

Lemma app_inj_r (s1 s2 t : string) : s1 +:+ t = s2 +:+ t → s1 = s2.
Proof.
  revert s2. induction s1 as [|c1 s1 IH]; intros [|c2 s2] Heq; [done| | |].
  - apply (f_equal String.length) in Heq.
    rewrite !length_app_string in Heq. simpl in Heq. lia.
  - apply (f_equal String.length) in Heq.
    rewrite !length_app_string in Heq. simpl in Heq. lia.
  - rewrite !app_cons in Heq. injection Heq as -> Heq. f_equal. by apply IH.
Qed.

Global Instance subdomain_of_inj (domain : string) :
  Inj (=) (=) (subdomain_of domain).
Proof. intros w1 w2 Heq. by apply app_inj_r in Heq. Qed.

Lemma flat_map_nil {A B} (f : A → list B) (l : list A) :
  (∀ x, x ∈ l → f x = []) → flat_map f l = [].
Proof.
  induction l as [|x l IH]; intros Hf; simpl; [done|].
  rewrite (Hf x) by (by left). apply IH. intros y Hy. apply Hf. by right.
Qed.

Lemma initial_in_flight (domain : string) (words : list string) (n : nat) :
  in_flight domain (initial_pool words n) = map (subdomain_of domain) words.
Proof.
  unfold in_flight, initial_pool. simpl.
  rewrite flat_map_nil; [by rewrite app_nil_r|].
  by intros x ->%elem_of_replicate_inv.
Qed.

Lemma initial_added (words : list string) (n : nat) :
  added (initial_pool words n) = [].
Proof.
  unfold added, initial_pool. simpl. apply flat_map_nil.
  by intros x ->%elem_of_replicate_inv.
Qed.

Lemma initial_inv (E : env) (domain : string) (dt : option Q)
    (words : list string) (n : nat) :
  pool_inv E domain dt words (initial_pool words n).
Proof.
  constructor.
  - intros s. rewrite initial_in_flight, list_elem_of_In, in_map_iff.
    intros (w & <- & Hw). exists w. by rewrite list_elem_of_In.
  - intros s. unfold known, initial_pool. simpl.
    rewrite flat_map_nil; [by intros []%elem_of_nil|].
    by intros x ->%elem_of_replicate_inv.
  - by intros s []%not_elem_of_empty.
  - intros s. rewrite initial_added. split.
    + by intros []%not_elem_of_empty.
    + by intros []%elem_of_nil.
  - intros w Hw _. left. rewrite initial_in_flight, list_elem_of_In, in_map_iff.
    exists w. by rewrite <- list_elem_of_In.
  - by intros [=]%elem_of_replicate_inv.
  - done.
Qed.

Lemma initial_distinct (domain : string) (words : list string) (n : nat) :
  NoDup words → pool_distinct domain (initial_pool words n).
Proof.
  intros Hnd. constructor.
  - rewrite initial_in_flight. by apply (NoDup_fmap_2 (subdomain_of domain)).
  - intros s _. apply not_elem_of_empty.
  - rewrite initial_added. apply NoDup_nil_2.
Qed.

(** *** Every worker returns *)

Section Termination.
Context (E : env) (domain : string) (dt : option Q).

Lemma pool_next_length (i : nat) (p : pool) :
  length (pool_next E domain dt i p).1 = length p.1.
Proof.
  unfold pool_next. destruct (p.1 !! i) as [pc|]; [|done].
  destruct (worker_next E domain dt pc p.2). simpl. apply length_insert.
Qed.

Lemma pool_run_length (sched : list nat) (p : pool) :
  length (pool_run E domain dt sched p).1 = length p.1.
Proof.
  revert p. induction sched as [|i sched IH]; intros p; simpl; [done|].
  by rewrite IH, pool_next_length.
Qed.

Lemma pool_run_app (s1 s2 : list nat) (p : pool) :
  pool_run E domain dt (s1 ++ s2) p
  = pool_run E domain dt s2 (pool_run E domain dt s1 p).
Proof. revert p. induction s1 as [|i s1 IH]; intros p; simpl; [done | apply IH]. Qed.

Lemma returned_stays (i j : nat) (p : pool) :
  p.1 !! i = Some Returned → (pool_next E domain dt j p).1 !! i = Some Returned.
Proof.
  intros Hi. unfold pool_next. destruct (p.1 !! j) as [pc|] eqn:Hj; [|done].
  destruct (decide (j = i)) as [->|Hne].
  - rewrite Hi in Hj. injection Hj as <-. simpl. by rewrite list_insert_id.
  - destruct (worker_next E domain dt pc p.2). simpl.
    by rewrite list_lookup_insert_ne.
Qed.

Lemma returned_stays_run (i : nat) (sched : list nat) (p : pool) :
  p.1 !! i = Some Returned → (pool_run E domain dt sched p).1 !! i = Some Returned.
Proof.
  revert p. induction sched as [|j sched IH]; intros p Hi; simpl; [done|].
  by apply IH, returned_stays.
Qed.

Lemma weight_decreases (i : nat) (p : pool) (pc : worker_pc) :
  p.1 !! i = Some pc → pc ≠ Returned →
  (weight (pool_next E domain dt i p) i < weight p i)%nat.
Proof.
  intros Hi Hpc. unfold weight, pool_next. rewrite Hi.
  assert (Hlt : (i < length p.1)%nat) by (by eapply lookup_lt_Some).
  destruct p as [pcs sh]. simpl in *.
  destruct pc as [| |word|s|s|s| |]; simpl; try done.
  - destruct (word_queue sh) eqn:Hq; simpl;
      rewrite list_lookup_insert_eq by done; rewrite ?Hq; simpl; lia.
  - destruct (word_queue sh) eqn:Hq; simpl;
      rewrite list_lookup_insert_eq by done; rewrite ?Hq; simpl; lia.
  - destruct (resolves E dt (subdomain_of domain word)); simpl;
      rewrite list_lookup_insert_eq by done; simpl; lia.
  - destruct (decide (s ∈ found_subdomains_set sh)); simpl;
      rewrite list_lookup_insert_eq by done; simpl; lia.
  - rewrite list_lookup_insert_eq by done. simpl. lia.
  - rewrite list_lookup_insert_eq by done. simpl. lia.
  - rewrite list_lookup_insert_eq by done. simpl. lia.
Qed.

(** A worker left to run on its own returns within [weight] steps. *)
Lemma runs_to_return (i k : nat) (p : pool) :
  (i < length p.1)%nat → (weight p i ≤ k)%nat →
  (pool_run E domain dt (replicate k i) p).1 !! i = Some Returned.
Proof.
  revert p. induction k as [|k IH]; intros p Hlt Hw.
  - simpl. destruct (lookup_lt_is_Some_2 p.1 i Hlt) as [pc Hpc].
    unfold weight in Hw. rewrite Hpc in Hw. simpl in Hw.
    rewrite Hpc. f_equal. destruct pc; simpl in Hw; try lia. done.
  - simpl. destruct (lookup_lt_is_Some_2 p.1 i Hlt) as [pc Hpc].
    destruct (decide (pc = Returned)) as [->|Hne].
    + by apply returned_stays_run, returned_stays.
    + apply IH; [by rewrite pool_next_length|].
      pose proof (weight_decreases i p pc Hpc Hne). lia.
Qed.

Lemma weight_bounded (words : list string) (i : nat) (p : pool) :
  pool_inv E domain dt words p →
  (weight p i ≤ steps_bound (length words))%nat.
Proof.
  intros Hinv. pose proof (inv_length _ _ _ _ _ Hinv) as Hlen.
  unfold weight, steps_bound.
  destruct (p.1 !! i) as [pc|]; simpl; [destruct pc; simpl; lia | lia].
Qed.

(** After the blocks of the first [m] workers, those workers have returned. *)
Lemma completion_returns (words : list string) (m : nat) (p : pool) :
  pool_inv E domain dt words p → (m ≤ length p.1)%nat →
  ∀ i, (i < m)%nat →
       (pool_run E domain dt (completion_schedule m (length words)) p).1 !! i
       = Some Returned.
Proof.
  intros Hinv. unfold completion_schedule.
  induction m as [|m IH]; intros Hm i Hi; [lia|].
  rewrite seq_S, flat_map_app, pool_run_app. simpl. rewrite app_nil_r.
  set (p1 := pool_run E domain dt
               (flat_map (λ i0, replicate (steps_bound (length words)) i0) (seq 0 m)) p).
  assert (Hinv1 : pool_inv E domain dt words p1) by (by apply pool_run_inv).
  assert (Hlen1 : length p1.1 = length p.1) by apply pool_run_length.
  destruct (decide (i = m)) as [->|Hne].
  - apply runs_to_return; [lia | by apply weight_bounded].
  - apply returned_stays_run. apply IH; lia.
Qed.

End Termination.

(** *** What the engine returns *)

Section EngineResults.
Context (E : env) (domain : string) (timeout : Q) (verbose : bool).

(** With at least one worker the pool always returns, whatever the
    schedule: the list holds exactly the names of the words that resolve,
    and holds none twice when no word occurs twice. *)
Lemma run_pool_results (words : list string) (num_threads : Z) (w : world) :
  0 < num_threads →
  ∃ results w',
    run_pool E domain words num_threads timeout verbose w = (Ret results, w')
    ∧ defaulttimeout w' = defaulttimeout w
    ∧ (∀ s, s ∈ results ↔
            ∃ word, word ∈ words ∧ s = subdomain_of domain word
                    ∧ resolves E (defaulttimeout w) s = true)
    ∧ (NoDup words → NoDup results).
Proof.
  intros Hn. unfold run_pool.
  destruct (decide (num_threads ≤ 0)) as [Hle|_]; [lia|].
  set (n := Z.to_nat num_threads).
  assert (Hn' : (0 < n)%nat) by lia.
  rewrite (bind_ret _ _ w _ ()) by apply for_each_emit.
  set (w1 := World (trace w ++ map Submit (seq 0 n)) (defaulttimeout w)).
  set (sched := schedule E ++ completion_schedule n (length words)).
  destruct (run_schedule_pure E domain timeout verbose sched
              (initial_pool words n) w1) as (w2 & Hrun & Hdt).
  change (defaulttimeout w1) with (defaulttimeout w) in Hrun, Hdt.
  set (dt := defaulttimeout w) in *.
  set (pf := pool_run E domain dt sched (initial_pool words n)) in *.
  exists (results_list pf.2), w2.
  split.
  { unfold initial_pool in Hrun. rewrite (bind_ret _ _ _ _ _ Hrun).
    by destruct pf. }
  split; [done|].
  (* the invariants at the end *)
  assert (Hinv : pool_inv E domain dt words pf)
    by apply pool_run_inv, initial_inv.
  assert (Hlen : length pf.1 = n).
  { unfold pf. rewrite pool_run_length. apply length_replicate. }
  assert (Hall : ∀ i, (i < n)%nat → pf.1 !! i = Some Returned).
  { intros i Hi. unfold pf, sched. rewrite pool_run_app.
    apply completion_returns; [apply pool_run_inv, initial_inv| |done].
    rewrite pool_run_length. simpl. by rewrite length_replicate. }
  assert (Hret : ∀ pc, pc ∈ pf.1 → pc = Returned).
  { intros pc (i & Hi)%list_elem_of_lookup.
    rewrite Hall in Hi by (apply lookup_lt_Some in Hi; lia). congruence. }
  assert (Hqueue : word_queue pf.2 = []).
  { apply (inv_returned _ _ _ _ _ Hinv).
    eapply list_elem_of_lookup_2. apply (Hall 0%nat). lia. }
  assert (Hflight : in_flight domain pf = []).
  { unfold in_flight. rewrite Hqueue. simpl. apply flat_map_nil.
    by intros pc ->%Hret. }
  assert (Hadded : added pf = results_list pf.2).
  { unfold added. rewrite flat_map_nil; [apply app_nil_r|].
    by intros pc ->%Hret. }
  split.
  - intros s. rewrite <- Hadded, <- (inv_added _ _ _ _ _ Hinv). split.
    + intros Hs. destruct (inv_sound _ _ _ _ _ Hinv s Hs) as [(word & Hw & ->) Hres].
      by exists word.
    + intros (word & Hw & -> & Hres).
      destruct (inv_complete _ _ _ _ _ Hinv word Hw Hres) as [Hin|Hin]; [|done].
      rewrite Hflight in Hin. by apply elem_of_nil in Hin.
  - intros Hnd. rewrite <- Hadded.
    apply (distinct_added domain pf).
    apply (pool_run_distinct E domain dt words); [apply initial_inv|].
    by apply initial_distinct.
Qed.

End EngineResults.

(** ** The set and the list under interleaved workers *)

Lemma brute_force_results (E : env) (domain path file_text : string)
    (num_threads : Z) (timeout : Q) (verbose : bool) (w : world) :
  read_text E path = Ret file_text → wordlist_words file_text ≠ [] →
  0 < num_threads →
  ∃ results w',
    brute_force_subdomains E domain path num_threads timeout verbose w
    = (Ret results, w')
    ∧ (∀ s, s ∈ results ↔
            ∃ word, word ∈ wordlist_words file_text
                    ∧ s = subdomain_of domain word
                    ∧ resolves E (defaulttimeout w) s = true)
    ∧ (NoDup (wordlist_words file_text) → NoDup results).
Proof.
  intros Hread Hne Hn.
  rewrite (brute_force_loaded E domain path file_text) by done.
  set (w0 := before_pool domain path num_threads verbose (wordlist_words file_text) w).
  destruct (run_pool_results E domain timeout verbose (wordlist_words file_text)
              num_threads w0 Hn) as (results & w1 & Hrun & _ & Hres & Hnd).
  assert (Hdt : defaulttimeout w0 = defaulttimeout w).
  { unfold w0, before_pool. rewrite logged_defaulttimeout. simpl.
    apply logged_defaulttimeout. }
  rewrite Hdt in Hres.
  exists results, (logged verbose "DNS brute-force scan complete." w1).
  split; [|done].
  rewrite (bind_ret _ _ _ _ _ Hrun).
  by rewrite (bind_ret _ _ _ _ ()) by apply print_verbose_eq.
Qed.

(** C9 (the code departs from the claim): no update is lost, under any
    schedule: with at least one worker the list the engine returns holds
    the name of every word that resolves.  But the list can hold a name
    twice.  The membership test of line 54 and the insertions of lines
    55-56 are separate operations on the shared set and list: two workers
    that took the two [www] of [www_twice] both reach the test with the set
    still empty; when both test before either inserts, both append, and the
    list holds the name twice though the set holds it once.  When one
    worker finishes its offer before the other tests, the list holds it
    once. *)
Theorem C9_concurrent_offer_appends_twice :
  (∀ (E : env) (domain : string) (words : list string) (num_threads : Z)
     (timeout : Q) (verbose : bool) (w : world),
     0 < num_threads →
     ∃ results,
       (run_pool E domain words num_threads timeout verbose w).1 = Ret results
       ∧ ∀ word, word ∈ words →
                 resolves E (defaulttimeout w) (subdomain_of domain word) = true →
                 subdomain_of domain word ∈ results)
  ∧ pool_run (sample_env www_twice all_resolve []) "example.com" None
             [0; 1; 0; 1; 0; 1]%nat (initial_pool ["www"; "www"] 2)
    = two_offers "www.example.com"
  ∧ results_list (offers_after [0; 1; 0; 1; 0; 1]%nat "www.example.com")
    = ["www.example.com"; "www.example.com"]
  ∧ elements (found_subdomains_set
                (offers_after [0; 1; 0; 1; 0; 1]%nat "www.example.com"))
    = ["www.example.com"]
  ∧ results_list (offers_after [0; 0; 0; 1; 1; 1]%nat "www.example.com")
    = ["www.example.com"].
Proof.
  split; [|repeat split; vm_compute; reflexivity].
  intros E domain words num_threads timeout verbose w Hn.
  destruct (run_pool_results E domain timeout verbose words num_threads w Hn)
    as (results & w' & Hrun & _ & Hres & _).
  exists results. rewrite Hrun. split; [done|].
  intros word Hw Hr. apply Hres. by exists word.
Qed.

Lemma C9_concurrent_offer_appends_twice_witness :
  ∃ results,
    (run_pool (sample_env www_twice all_resolve [0; 1; 0; 1; 0; 1]%nat)
              "example.com" ["www"; "www"] 2 2 false world0).1 = Ret results
    ∧ "www.example.com" ∈ results.
Proof.
  destruct C9_concurrent_offer_appends_twice as [Hkept _].
  destruct (Hkept (sample_env www_twice all_resolve [0; 1; 0; 1; 0; 1]%nat)
              "example.com" ["www"; "www"] 2 2%Q false world0 eq_refl)
    as (results & Hrun & Hin).
  exists results. split; [exact Hrun|].
  apply (Hin "www"); [by left | reflexivity].
Defined.

(** C5 (the code departs from the claim): when every candidate resolves,
    the names the engine returns are, for every schedule and every positive
    number of workers, exactly the names [candidate.domain] of the n
    distinct entries of the wordlist, and the list holds each of them once
    when no entry occurs twice.  When an entry occurs twice the list can
    hold its name twice: for [www_twice], which has one distinct entry, two
    workers that take their steps in turn make the engine return two
    subdomains, not one; with the workers one after the other it returns
    one. *)
Theorem C5_duplicate_word_found_twice :
  (∀ (E : env) (domain path file_text : string) (num_threads : Z) (timeout : Q)
     (verbose : bool) (w : world),
     let words := wordlist_words file_text in
     read_text E path = Ret file_text → words ≠ [] → 0 < num_threads →
     (∀ word, word ∈ words →
              resolves E (defaulttimeout w) (subdomain_of domain word) = true) →
     ∃ results,
       (brute_force_subdomains E domain path num_threads timeout verbose w).1
       = Ret results
       ∧ remove_dups results ≡ₚ map (subdomain_of domain) (remove_dups words)
       ∧ length (remove_dups results) = length (remove_dups words)
       ∧ (NoDup words →
          results ≡ₚ map (subdomain_of domain) words
          ∧ length results = length words))
  ∧ length (remove_dups (wordlist_words www_twice)) = 1%nat
  ∧ (brute_force_subdomains
       (sample_env www_twice all_resolve [0; 1; 0; 1; 0; 1; 0; 1; 0; 1; 0; 1]%nat)
       "example.com" "words.txt" 2 2 false world0).1
    = Ret ["www.example.com"; "www.example.com"]
  ∧ (brute_force_subdomains (sample_env www_twice all_resolve [])
       "example.com" "words.txt" 2 2 false world0).1
    = Ret ["www.example.com"].
Proof.
  split; [|repeat split; vm_compute; reflexivity].
  intros E domain path file_text num_threads timeout verbose w words
         Hread Hne Hn Hall.
  destruct (brute_force_results E domain path file_text num_threads timeout
              verbose w Hread Hne Hn) as (results & w' & Hrun & Hres & Hnd).
  fold words in Hres, Hnd.
  assert (Hmem : ∀ s, s ∈ results ↔ s ∈ map (subdomain_of domain) words).
  { intros s. rewrite Hres, list_elem_of_In, in_map_iff. split.
    - intros (word & Hw & -> & _). exists word. by rewrite <- list_elem_of_In.
    - intros (word & <- & Hw%list_elem_of_In). exists word. auto. }
  assert (Hdistinct : remove_dups results
                      ≡ₚ map (subdomain_of domain) (remove_dups words)).
  { apply NoDup_Permutation.
    - apply NoDup_remove_dups.
    - apply (NoDup_fmap_2 (subdomain_of domain)), NoDup_remove_dups.
    - intros s. rewrite elem_of_remove_dups, Hmem.
      rewrite !list_elem_of_In, !in_map_iff.
      split; intros (word & Heq & Hw); exists word; split; try done;
        by rewrite <- list_elem_of_In, ?elem_of_remove_dups, list_elem_of_In in *. }
  exists results. rewrite Hrun. split; [done|]. split; [done|]. split.
  - by rewrite Hdistinct, length_map.
  - intros Hwords.
    assert (Hperm : results ≡ₚ map (subdomain_of domain) words).
    { apply NoDup_Permutation; [by apply Hnd| |done].
      by apply (NoDup_fmap_2 (subdomain_of domain)). }
    split; [done|]. by rewrite Hperm, length_map.
Qed.

Lemma C5_duplicate_word_found_twice_witness :
  ∃ results,
    (brute_force_subdomains (sample_env ("www" +:+ PyStr.nl +:+ "mail") all_resolve
                                        [1; 0; 1; 0; 0; 1]%nat)
       "example.com" "words.txt" 3 2 false world0).1 = Ret results
    ∧ remove_dups results
      ≡ₚ map (subdomain_of "example.com") (remove_dups ["www"; "mail"])
    ∧ length (remove_dups results) = length (remove_dups ["www"; "mail"])
    ∧ (NoDup ["www"; "mail"] →
       results ≡ₚ map (subdomain_of "example.com") ["www"; "mail"]
       ∧ length results = length ["www"; "mail"]).
Proof.
  destruct C5_duplicate_word_found_twice as [Hall _].
  apply (Hall (sample_env ("www" +:+ PyStr.nl +:+ "mail") all_resolve
                          [1; 0; 1; 0; 0; 1]%nat)
              "example.com" "words.txt" ("www" +:+ PyStr.nl +:+ "mail") 3 2%Q
              false world0); [reflexivity | discriminate | reflexivity |].
  intros word _. reflexivity.
Defined.

(** ** What goes on the trace *)

Lemma world_eta (w : world) : World (trace w ++ []) (defaulttimeout w) = w.
Proof. destruct w. simpl. by rewrite app_nil_r. Qed.

Lemma emits_silent {A} (P : event → bool) (m : M A) :
  (∀ w, (m w).2 = w) → emits P m.
Proof. intros Hm w. exists []. by rewrite Hm, world_eta. Qed.

Lemma emits_mret {A} (P : event → bool) (a : A) : emits P (mret a).
Proof. by apply emits_silent. Qed.

Lemma emits_raise {A} (P : event → bool) (e : exn) : emits P (raise e : M A).
Proof. by apply emits_silent. Qed.

Lemma emits_lift {A} (P : event → bool) (r : outcome A) : emits P (lift r).
Proof. by apply emits_silent. Qed.

Lemma emits_emit (P : event → bool) (e : event) : P e = true → emits P (emit e).
Proof. intros He w. exists [e]. simpl. by rewrite He. Qed.

Lemma emits_bind {A B} (P : event → bool) (m : M A) (f : A → M B) :
  emits P m → (∀ a, emits P (f a)) → emits P (m ≫= f).
Proof.
  intros Hm Hf w. destruct (Hm w) as (evs1 & Hw1 & HP1).
  unfold mbind, M_bind. destruct (m w) as [[a|e] w1]; simpl in Hw1.
  - destruct (Hf a w1) as (evs2 & Hw2 & HP2).
    exists (evs1 ++ evs2). rewrite Hw2, Hw1. simpl.
    by rewrite app_assoc, forallb_app, HP1, HP2.
  - by exists evs1.
Qed.

Lemma emits_try_except {A} (P : event → bool) (body : M A)
    (handler : exn → option (M A)) :
  emits P body → (∀ e h, handler e = Some h → emits P h) →
  emits P (try_except body handler).
Proof.
  intros Hb Hh w. destruct (Hb w) as (evs1 & Hw1 & HP1).
  unfold try_except. destruct (body w) as [[a|e] w1]; simpl in Hw1.
  - by exists evs1.
  - destruct (handler e) as [h|] eqn:He; [|by exists evs1].
    destruct (Hh e h He w1) as (evs2 & Hw2 & HP2).
    exists (evs1 ++ evs2). rewrite Hw2, Hw1. simpl.
    by rewrite app_assoc, forallb_app, HP1, HP2.
Qed.

Lemma emits_for_each {A} (P : event → bool) (xs : list A) (body : A → M unit) :
  (∀ x, emits P (body x)) → emits P (for_each xs body).
Proof.
  intros Hb. induction xs as [|x xs IH]; simpl; [apply emits_mret|].
  by apply emits_bind.
Qed.

Lemma emits_print_verbose (P : event → bool) (msg : string) (verbose : bool) :
  (verbose = true → ∀ t, P (Stderr t) = true) → emits P (print_verbose msg verbose).
Proof.
  intros HP w. rewrite print_verbose_eq. destruct verbose; simpl.
  - exists [Stderr ("[*] " +:+ msg)]. simpl. by rewrite HP.
  - exists []. by rewrite world_eta.
Qed.

Lemma emits_print_error (P : event → bool) (msg : string) :
  emits P (print_error msg).
Proof. apply emits_silent. intros w. by rewrite print_error_raises. Qed.

Lemma emits_print_always (P : event → bool) (msg : string) :
  P (Stdout msg) = true → emits P (print_always msg).
Proof. intros HP w. rewrite print_always_eq. exists [Stdout msg]. simpl. by rewrite HP. Qed.

Section StageEvents.
Context (E : env) (P : event → bool) (verbose : bool).
Context (Hlog : verbose = true → ∀ t, P (Stderr t) = true).

Lemma resolve_subdomain_emits (name : string) (timeout : Q) :
  P (DnsQuery name) = true → emits P (resolve_subdomain E name timeout verbose).
Proof.
  intros Hq. unfold resolve_subdomain.
  apply emits_bind; [by apply emits_silent|]. intros dt.
  apply emits_bind; [by apply emits_emit|]. intros _.
  destruct (gethostbyname_ex E dt name) as [h al [|ip0 ips]|m|m|m];
    (apply emits_bind; [by apply emits_print_verbose | intros; apply emits_mret]).
Qed.

Lemma worker_step_emits (domain : string) (timeout : Q) (pc : worker_pc)
    (sh : shared) :
  (∀ name, P (DnsQuery name) = true) →
  emits P (worker_step E domain timeout verbose pc sh).
Proof.
  intros Hq. destruct pc; simpl; try apply emits_mret.
  - destruct (word_queue sh); apply emits_mret.
  - destruct (word_queue sh); apply emits_mret.
  - apply emits_bind; [by apply resolve_subdomain_emits|].
    intros [r|]; apply emits_mret.
  - destruct (decide (subdomain ∈ found_subdomains_set sh)); apply emits_mret.
Qed.

Lemma run_schedule_emits (domain : string) (timeout : Q) (sched : list nat)
    (p : pool) :
  (∀ name, P (DnsQuery name) = true) →
  emits P (run_schedule E domain timeout verbose sched p).
Proof.
  intros Hq. revert p. induction sched as [|i sched IH]; intros p; simpl.
  { apply emits_mret. }
  apply emits_bind; [|done]. unfold pool_step.
  destruct (p.1 !! i) as [pc|]; [|apply emits_mret].
  apply emits_bind; [by apply worker_step_emits|].
  intros [pc' sh']. apply emits_mret.
Qed.

Lemma load_wordlist_emits (path : string) :
  P (OpenRead path) = true → emits P (load_wordlist E path verbose).
Proof.
  intros Ho. unfold load_wordlist. apply emits_try_except.
  - apply emits_bind; [by apply emits_emit|]. intros _.
    apply emits_bind; [apply emits_lift|]. intros file_text.
    destruct (wordlist_words file_text); [|apply emits_mret].
    apply emits_bind; [by apply emits_print_verbose | intros; apply emits_mret].
  - intros e h He.
    assert (Hh : h = (print_error ("Error: Wordlist file not found at '"
                                   +:+ path +:+ "'");; mret None)
                 ∨ h = (print_error ("Error reading wordlist: " +:+ exn_str e);;
                        mret None)).
    { destruct e; simpl in He; try discriminate He; injection He as <-; auto. }
    destruct Hh as [-> | ->];
      (apply emits_bind; [apply emits_print_error | intros; apply emits_mret]).
Qed.

Lemma brute_force_subdomains_emits (domain path : string) (num_threads : Z)
    (timeout : Q) :
  P (OpenRead path) = true → (∀ i, P (Submit i) = true) →
  (∀ name, P (DnsQuery name) = true) →
  emits P (brute_force_subdomains E domain path num_threads timeout verbose).
Proof.
  intros Ho Hs Hq. unfold brute_force_subdomains.
  apply emits_bind; [by apply emits_print_verbose|]. intros _.
  apply emits_bind; [by apply load_wordlist_emits|].
  intros [words|]; [|apply emits_mret].
  apply emits_bind; [by apply emits_print_verbose|]. intros _.
  apply emits_bind.
  - unfold run_pool. destruct (decide (num_threads ≤ 0)); [apply emits_raise|].
    apply emits_bind.
    { apply emits_for_each. intros i. by apply emits_emit. }
    intros _. apply emits_bind; [by apply run_schedule_emits|].
    intros [pcs sh]. apply emits_mret.
  - intros results.
    apply emits_bind; [by apply emits_print_verbose | intros; apply emits_mret].
Qed.

Lemma fetch_crtsh_subdomains_emits (domain : string) :
  P (HttpGet (CRTSH_URL domain)) = true →
  emits P (fetch_crtsh_subdomains E domain verbose).
Proof.
  intros Hg. unfold fetch_crtsh_subdomains.
  apply emits_bind; [by apply emits_print_verbose|]. intros _.
  apply emits_bind; [by apply emits_emit|]. intros _.
  destruct (crtsh_try_body E domain) as [[found resp] err].
  apply emits_bind.
  - destruct err as [e|]; [|apply emits_mret].
    unfold crtsh_handlers.
    destruct e; simpl; try apply emits_print_error; try apply emits_raise.
    destruct resp; [apply emits_print_error | apply emits_raise].
  - intros _.
    apply emits_bind; [by apply emits_print_verbose | intros; apply emits_mret].
Qed.

Lemma report_emits (a : args) (s : gset string) :
  arg_verbose a = verbose →
  (∀ t, P (Stdout t) = true) → (∀ path, P (OpenWrite path) = true) →
  (∀ path t, P (FileWrite path t) = true) →
  emits P (report E a s).
Proof.
  intros Hv Hout Hopen Hwrite. unfold report. rewrite Hv.
  apply emits_bind; [|intros; by apply emits_print_verbose].
  destruct (elements s); [by apply emits_print_always|].
  apply emits_bind; [by apply emits_print_always|]. intros _.
  apply emits_bind.
  { apply emits_for_each. intros sub. by apply emits_emit. }
  intros _. unfold save_results.
  destruct (arg_output a) as [path|]; [|apply emits_mret].
  destruct (PyStr.nonempty path); [|apply emits_mret].
  apply emits_try_except.
  - apply emits_bind; [by apply emits_emit|]. intros _.
    apply emits_bind; [apply emits_lift|]. intros _.
    apply emits_bind.
    { apply emits_for_each. intros sub. by apply emits_emit. }
    intros _. by apply emits_print_always.
  - intros e h He. destruct (is_IOError e); [|done].
    injection He as <-. apply emits_print_error.
Qed.

End StageEvents.

(** ** The course of a run *)

Lemma check_usage_ok (a : args) (w : world) :
  usage_ok a = true → check_usage a w = (Ret (), w).
Proof.
  unfold usage_ok, check_usage. intros [H1 H2]%andb_true_iff.
  apply negb_true_iff in H1, H2. by rewrite H1, H2.
Qed.

Lemma check_usage_refuses (E : env) (a : args) (w : world) :
  usage_ok a = false → main E a w = (Raise (TypeError unexpected_file), w).
Proof.
  unfold usage_ok. intros [H|H]%andb_false_iff; apply negb_false_iff in H.
  - apply andb_true_iff in H as [Hp Ha]. by apply usage_error_both.
  - apply andb_true_iff in H as [Ha Hw%negb_true_iff].
    by apply usage_error_no_wordlist.
Qed.

Lemma run_event_stderr (a : args) (t : string) :
  arg_verbose a = true → run_event a (Stderr t) = true.
Proof. intros Hv. unfold run_event. simpl. rewrite Hv. by rewrite !orb_true_r. Qed.

Lemma collect_report_emits (E : env) (a : args) :
  emits (run_event a)
    (after_passive ←
       (if run_passive a then
          crtsh_results ← fetch_crtsh_subdomains E (arg_domain a) (arg_verbose a);
          mret (add_all crtsh_results ∅)
        else mret ∅);
     all_found ←
       (if run_active a then
          match arg_wordlist a with
          | Some path =>
              if PyStr.nonempty path then
                bruteforce_results ←
                  brute_force_subdomains E (arg_domain a) path (arg_threads a)
                                         (arg_timeout a) (arg_verbose a);
                mret (add_all bruteforce_results after_passive)
              else
                print_error "Warning: No wordlist provided. Skipping DNS brute-force. Use -w to specify one.";;
                mret after_passive
          | None =>
              print_error "Warning: No wordlist provided. Skipping DNS brute-force. Use -w to specify one.";;
              mret after_passive
          end
        else mret after_passive);
     report E a all_found).
Proof.
  pose proof (run_event_stderr a) as Hlog.
  apply emits_bind.
  { destruct (run_passive a) eqn:Hp; [|apply emits_mret].
    apply emits_bind; [|intros; apply emits_mret].
    apply (fetch_crtsh_subdomains_emits E _ (arg_verbose a)); [auto|].
    unfold run_event. by rewrite Hp. }
  intros after_passive. apply emits_bind.
  { destruct (run_active a) eqn:Ha; [|apply emits_mret].
    destruct (arg_wordlist a) as [path|].
    2: { apply emits_bind; [apply emits_print_error | intros; apply emits_mret]. }
    destruct (PyStr.nonempty path).
    2: { apply emits_bind; [apply emits_print_error | intros; apply emits_mret]. }
    apply emits_bind; [|intros; apply emits_mret].
    apply (brute_force_subdomains_emits E _ (arg_verbose a)); [auto|..];
      intros; unfold run_event; rewrite Ha; simpl; by rewrite ?orb_true_r. }
  intros all_found.
  apply (report_emits E _ (arg_verbose a)); [auto|done|..];
    intros; unfold run_event; simpl; by rewrite ?orb_true_r.
Qed.

Lemma main_course (E : env) (a : args) (w : world) :
  usage_ok a = true →
  ∃ evs, (main E a w).2
         = World (trace w ++ SetDefaultTimeout (arg_timeout a) :: evs)
                 (Some (arg_timeout a))
         ∧ forallb (run_event a) evs = true.
Proof.
  intros Hok. unfold main.
  rewrite (bind_ret _ _ w w ()) by (by apply check_usage_ok).
  unfold collect. rewrite bind_assoc.
  rewrite (bind_ret _ _ w (timeout_set w (arg_timeout a)) ()) by reflexivity.
  destruct (collect_report_emits E a (timeout_set w (arg_timeout a)))
    as (evs & Hw & HP).
  exists evs. split; [|done].
  rewrite bind_assoc, Hw. simpl. by rewrite <- app_assoc.
Qed.

Lemma forallb_impl {A} (P Q : A → bool) (l : list A) :
  (∀ x, P x = true → Q x = true) → forallb P l = true → forallb Q l = true.
Proof.
  intros HPQ. induction l as [|x l IH]; simpl; [done|].
  intros [Hx Hl]%andb_true_iff. by rewrite (HPQ x Hx), IH.
Qed.



(** X2: when [--passive-only] is given, or no wordlist is, a run never
    opens a wordlist, submits a worker or looks a name up, whatever crt.sh
    answers. *)
Theorem passive_run_stays_passive (E : env) (a : args) (w : world) :
  arg_passive_only a = true ∨ given (arg_wordlist a) = false →
  ∃ evs, trace (main E a w).2 = trace w ++ evs
         ∧ forallb (λ e, negb (is_active e)) evs = true.
Proof.
  intros Hmode.
  assert (Hact : run_active a = false).
  { unfold run_active. destruct Hmode as [-> | ->]; [by rewrite andb_false_r | done]. }
  destruct (usage_ok a) eqn:Hok.
  - destruct (main_course E a w Hok) as (evs & Hw & HP).
    exists (SetDefaultTimeout (arg_timeout a) :: evs). rewrite Hw. simpl.
    split; [done|]. apply (forallb_impl (run_event a)); [|done].
    intros e. unfold run_event. rewrite Hact.
    destruct e; simpl; try done; by rewrite ?andb_false_r.
  - exists []. rewrite (check_usage_refuses E a w Hok). simpl.
    by rewrite app_nil_r.
Qed.

Lemma passive_run_stays_passive_witness :
  ∃ evs,
    trace (main both_env
                (Args "example.com" (Some "words.txt") None 2 2 true false true)
                world0).2 = trace world0 ++ evs
    ∧ forallb (λ e, negb (is_active e)) evs = true.
Proof.
  apply (passive_run_stays_passive both_env
           (Args "example.com" (Some "words.txt") None 2 2 true false true) world0).
  left. reflexivity.
Defined.

(** X3: when [--active-only] is given a run sends no HTTP request,
    whatever else happens. *)
Theorem active_only_sends_no_request (E : env) (a : args) (w : world) :
  arg_active_only a = true →
  ∃ evs, trace (main E a w).2 = trace w ++ evs
         ∧ forallb (λ e, negb (is_http e)) evs = true.
Proof.
  intros Hmode.
  assert (Hpas : run_passive a = false) by (unfold run_passive; by rewrite Hmode).
  destruct (usage_ok a) eqn:Hok.
  - destruct (main_course E a w Hok) as (evs & Hw & HP).
    exists (SetDefaultTimeout (arg_timeout a) :: evs). rewrite Hw. simpl.
    split; [done|]. apply (forallb_impl (run_event a)); [|done].
    intros e. unfold run_event. rewrite Hpas.
    destruct e; simpl; try done; by rewrite ?andb_false_r.
  - exists []. rewrite (check_usage_refuses E a w Hok). simpl.
    by rewrite app_nil_r.
Qed.

Lemma active_only_sends_no_request_witness :
  ∃ evs,
    trace (main both_env
                (Args "example.com" (Some "words.txt") None 2 2 false true false)
                world0).2 = trace world0 ++ evs
    ∧ forallb (λ e, negb (is_http e)) evs = true.
Proof.
  apply (active_only_sends_no_request both_env
           (Args "example.com" (Some "words.txt") None 2 2 false true false) world0).
  reflexivity.
Defined.

(** ** One lookup *)

Lemma resolve_subdomain_trace (E : env) (name : string) (timeout : Q)
    (verbose : bool) (w : world) :
  ∃ log,
    resolve_subdomain E name timeout verbose w
    = (Ret (if resolves E (defaulttimeout w) name then Some name else None),
       World (trace w ++ DnsQuery name :: log) (defaulttimeout w))
    ∧ (verbose = false → log = [])
    ∧ (verbose = true → ∃ line, log = [Stderr line]).
Proof.
  unfold resolve_subdomain, resolves.
  rewrite (bind_ret _ _ w w (defaulttimeout w)) by reflexivity.
  rewrite (bind_ret _ _ w _ ()) by apply emit_eq.
  destruct (gethostbyname_ex E (defaulttimeout w) name) as [h al [|ip0 ips]|m|m|m];
    rewrite (bind_ret _ _ _ _ ()) by apply print_verbose_eq;
    (destruct verbose; simpl;
     [eexists [_]; split;
        [unfold mret, M_ret, after; simpl; by rewrite <- app_assoc
        |split; [intros [=] | eauto]]
     |exists []; split; [done | split; [done | intros [=]]]]).
Qed.

(** X4: [resolve_subdomain] never raises, whatever the lookup does.  It
    makes exactly one lookup, of the name it was given, and returns that
    name when the lookup gives at least one address and [None] in every
    other case.  It writes one line to the error stream when [verbose],
    nothing otherwise, and never to standard output. *)
Theorem resolve_subdomain_once (E : env) (name : string) (timeout : Q)
    (verbose : bool) (w : world) :
  ∃ log,
    resolve_subdomain E name timeout verbose w
    = (Ret (if resolves E (defaulttimeout w) name then Some name else None),
       World (trace w ++ DnsQuery name :: log) (defaulttimeout w))
    ∧ (verbose = false → log = [])
    ∧ (verbose = true → ∃ line, log = [Stderr line]).
Proof. apply resolve_subdomain_trace. Qed.

(** ** A wordlist of white space only *)

Lemma lstrip_empty (s : string) : PyStr.lstrip s = "" ↔ all_space s = true.
Proof.
  induction s as [|c s IH]; simpl; [done|].
  destruct (PyStr.isspace c); simpl; [done|]. split; discriminate.
Qed.

Lemma rstrip_empty (s : string) : PyStr.rstrip s = "" ↔ all_space s = true.
Proof.
  induction s as [|c s IH]; simpl; [done|].
  destruct (PyStr.rstrip s) as [|c' r'].
  - destruct (PyStr.isspace c); simpl; [by rewrite <- IH|]. split; discriminate.
  - split; [discriminate|]. intros [_ Hs]%andb_true_iff.
    apply IH in Hs. discriminate Hs.
Qed.

Lemma all_space_lstrip (s : string) :
  all_space (PyStr.lstrip s) = all_space s.
Proof.
  induction s as [|c s IH]; simpl; [done|].
  destruct (PyStr.isspace c) eqn:Hc; simpl; [done | by rewrite Hc].
Qed.

Lemma strip_empty (s : string) : PyStr.strip s = "" ↔ all_space s = true.
Proof. unfold PyStr.strip. by rewrite rstrip_empty, all_space_lstrip. Qed.

Lemma all_space_app (s t : string) :
  all_space (s +:+ t) = all_space s && all_space t.
Proof.
  induction s as [|c s IH]; [done|]. rewrite app_cons. simpl.
  by rewrite IH, andb_assoc.
Qed.

Lemma all_space_universal_newlines (s : string) :
  all_space (PyStr.universal_newlines s) = all_space s.
Proof.
  assert (H : all_space (PyStr.universal_newlines s) = all_space s
              ∧ ∀ c, all_space (PyStr.universal_newlines (String c s))
                     = all_space (String c s)).
  { induction s as [|c' s [IH1 IH2]].
    - split; [done|]. intros c. simpl.
      destruct (decide (c = PyStr.CR)) as [->|]; [done|]. simpl. done.
    - split; [apply IH2|]. intros c.
      change (PyStr.universal_newlines (String c (String c' s)))
        with (if decide (c = PyStr.CR)
              then if decide (c' = PyStr.LF)
                   then String PyStr.LF (PyStr.universal_newlines s)
                   else String PyStr.LF (PyStr.universal_newlines (String c' s))
              else String c (PyStr.universal_newlines (String c' s))).
      destruct (decide (c = PyStr.CR)) as [->|].
      + destruct (decide (c' = PyStr.LF)) as [->|].
        * change (all_space (String PyStr.LF (PyStr.universal_newlines s)))
            with (all_space (PyStr.universal_newlines s)).
          by rewrite IH1.
        * change (all_space (String PyStr.LF (PyStr.universal_newlines (String c' s))))
            with (all_space (PyStr.universal_newlines (String c' s))).
          by rewrite IH2.
      + change (all_space (String c (PyStr.universal_newlines (String c' s))))
          with (PyStr.isspace c && all_space (PyStr.universal_newlines (String c' s))).
        by rewrite IH2. }
  apply H.
Qed.

Lemma all_space_iter_lines (s : string) :
  all_space s = true ↔ ∀ line, line ∈ PyStr.iter_lines s → all_space line = true.
Proof.
  induction s as [|c s IH]; simpl.
  { split; [by intros _ line []%elem_of_nil | done]. }
  destruct (decide (c = PyStr.LF)) as [->|Hc].
  - change (PyStr.isspace PyStr.LF) with true. simpl. rewrite IH. split.
    + intros Hall line [->|Hin]%elem_of_cons; [done | by apply Hall].
    + intros Hall line Hin. apply Hall. by right.
  - destruct (PyStr.iter_lines s) as [|l ls] eqn:Hl.
    + assert (Hs : all_space s = true) by (apply IH; by intros line []%elem_of_nil).
      rewrite Hs, andb_true_r. split.
      * intros Hsp line ->%list_elem_of_singleton. simpl. by rewrite Hsp.
      * intros Hall.
        specialize (Hall (String c "") ltac:(by left)). simpl in Hall.
        by rewrite andb_true_r in Hall.
    + rewrite andb_true_iff, IH. split.
      * intros [Hsp Hall] line [->|Hin]%elem_of_cons.
        -- simpl. rewrite Hsp. apply Hall. by left.
        -- apply Hall. by right.
      * intros Hall. split.
        -- specialize (Hall (String c l) ltac:(by left)). simpl in Hall.
           by apply andb_true_iff in Hall as [? _].
        -- intros line [->|Hin]%elem_of_cons.
           ++ specialize (Hall (String c l) ltac:(by left)). simpl in Hall.
              by apply andb_true_iff in Hall as [_ ?].
           ++ apply Hall. by right.
Qed.

Lemma wordlist_words_blank (file_text : string) :
  wordlist_words file_text = [] ↔ all_space file_text = true.
Proof.
  rewrite <- all_space_universal_newlines, all_space_iter_lines.
  unfold wordlist_words.
  induction (PyStr.iter_lines (PyStr.universal_newlines file_text))
    as [|line lines IH]; simpl.
  { split; [by intros _ l []%elem_of_nil | done]. }
  destruct (PyStr.nonempty (PyStr.strip line)) eqn:Hne; simpl.
  - split; [discriminate|]. intros Hall.
    specialize (Hall line ltac:(by left)). apply strip_empty in Hall.
    rewrite Hall in Hne. discriminate Hne.
  - rewrite IH. split.
    + intros Hall l [->|Hin]%elem_of_cons; [|by apply Hall].
      apply strip_empty. by destruct (PyStr.strip line).
    + intros Hall l Hin. apply Hall. by right.
Qed.

(** X5: the wordlist yields no candidate exactly when the file holds
    nothing but white space (line ends included).  Then
    [brute_force_subdomains] returns the empty list without raising, for
    every worker count, positive or not: it submits no worker, looks no
    name up and only logs, when verbose, that the wordlist is empty. *)
Theorem blank_wordlist_returns_empty (E : env) (domain path file_text : string)
    (num_threads : Z) (timeout : Q) (verbose : bool) (w : world) :
  (wordlist_words file_text = [] ↔ all_space file_text = true)
  ∧ (read_text E path = Ret file_text → all_space file_text = true →
     brute_force_subdomains E domain path num_threads timeout verbose w
     = (Ret [],
        logged verbose "Wordlist is empty or contains only whitespace."
          (after (logged verbose (start_message domain num_threads) w)
                 (OpenRead path)))).
Proof.
  split; [apply wordlist_words_blank|].
  intros Hread Hblank%wordlist_words_blank. unfold brute_force_subdomains.
  rewrite (bind_ret _ _ w _ ()) by apply print_verbose_eq.
  by rewrite (bind_ret _ _ _ _ _ (load_wordlist_blank E path file_text verbose
                                    _ Hread Hblank)).
Qed.

Lemma blank_wordlist_returns_empty_witness :
  brute_force_subdomains
    (sample_env ("  " +:+ PyStr.nl +:+ String PyStr.CR PyStr.nl) all_resolve [])
    "example.com" "words.txt" 0 2 false world0
  = (Ret [], World [OpenRead "words.txt"] None).
Proof.
  apply (blank_wordlist_returns_empty
           (sample_env ("  " +:+ PyStr.nl +:+ String PyStr.CR PyStr.nl) all_resolve [])
           "example.com" "words.txt" ("  " +:+ PyStr.nl +:+ String PyStr.CR PyStr.nl)
           0 2%Q false world0); reflexivity.
Defined.

(** ** The queue and the lookups *)

Section QueueAccounting.
Context (E : env) (domain : string) (dt : option Q).

Lemma replaced_taken_busy (pcs : list worker_pc) (i : nat) (pc pc' : worker_pc) :
  pcs !! i = Some pc →
  ∃ restt restb,
    flat_map (taken domain) pcs ≡ₚ taken domain pc ++ restt
    ∧ flat_map (taken domain) (<[i:=pc']> pcs) ≡ₚ taken domain pc' ++ restt
    ∧ flat_map busy pcs ≡ₚ busy pc ++ restb
    ∧ flat_map busy (<[i:=pc']> pcs) ≡ₚ busy pc' ++ restb.
Proof.
  intros Hi.
  destruct (flat_map_insert (taken domain) pcs i pc' pc Hi) as (restt & Ht1 & Ht2).
  destruct (flat_map_insert busy pcs i pc' pc Hi) as (restb & Hb1 & Hb2).
  by exists restt, restb.
Qed.

(** A step looks up what the worker had taken, and nothing else leaves the
    names that wait; the count of unfinished tasks stays the number of
    queued words plus that of the words in progress. *)
Lemma pool_next_accounts (i : nat) (p : pool) :
  waiting domain p
  ≡ₚ from_option (taken domain) [] (p.1 !! i)
     ++ waiting domain (pool_next E domain dt i p)
  ∧ (unfinished_tasks p.2 = (length (word_queue p.2) + in_progress p)%nat →
     unfinished_tasks (pool_next E domain dt i p).2
     = (length (word_queue (pool_next E domain dt i p).2)
        + in_progress (pool_next E domain dt i p))%nat).
Proof.
  unfold pool_next, waiting, in_progress. destruct p as [pcs sh]. simpl.
  destruct (pcs !! i) as [pc|] eqn:Hi; [|done]. simpl.
  destruct pc as [| |word|s|s|s| |]; simpl.
  - destruct (word_queue sh) as [|w q] eqn:Hq;
      [destruct (replaced_taken_busy pcs i AtWhile Returned Hi)
         as (restt & restb & Ht1 & Ht2 & Hb1 & Hb2)
      |destruct (replaced_taken_busy pcs i AtWhile AtGet Hi)
         as (restt & restb & Ht1 & Ht2 & Hb1 & Hb2)];
      simpl; rewrite ?Hq, Ht1, Ht2, Hb1, Hb2; done.
  - destruct (word_queue sh) as [|w q] eqn:Hq.
    + destruct (replaced_taken_busy pcs i AtGet Returned Hi)
        as (restt & restb & Ht1 & Ht2 & Hb1 & Hb2).
      simpl; rewrite ?Hq, Ht1, Ht2, Hb1, Hb2; done.
    + destruct (replaced_taken_busy pcs i AtGet (AtResolve w) Hi)
        as (restt & restb & Ht1 & Ht2 & Hb1 & Hb2).
      simpl; rewrite ?Hq, Ht1, Ht2, Hb1, Hb2. simpl. split.
      * by rewrite <- Permutation_middle.
      * lia.
  - destruct (resolves E dt (subdomain_of domain word));
      [destruct (replaced_taken_busy pcs i (AtResolve word)
                   (AtMember (subdomain_of domain word)) Hi)
         as (restt & restb & Ht1 & Ht2 & Hb1 & Hb2)
      |destruct (replaced_taken_busy pcs i (AtResolve word) AtTaskDone Hi)
         as (restt & restb & Ht1 & Ht2 & Hb1 & Hb2)];
      simpl; rewrite Ht1, Ht2, Hb1, Hb2; simpl;
      (split; [by rewrite <- Permutation_middle | done]).
  - destruct (decide (s ∈ found_subdomains_set sh));
      [destruct (replaced_taken_busy pcs i (AtMember s) AtTaskDone Hi)
         as (restt & restb & Ht1 & Ht2 & Hb1 & Hb2)
      |destruct (replaced_taken_busy pcs i (AtMember s) (AtAdd s) Hi)
         as (restt & restb & Ht1 & Ht2 & Hb1 & Hb2)];
      simpl; rewrite Ht1, Ht2, Hb1, Hb2; done.
  - destruct (replaced_taken_busy pcs i (AtAdd s) (AtAppend s) Hi)
      as (restt & restb & Ht1 & Ht2 & Hb1 & Hb2).
    simpl; rewrite Ht1, Ht2, Hb1, Hb2; done.
  - destruct (replaced_taken_busy pcs i (AtAppend s) AtTaskDone Hi)
      as (restt & restb & Ht1 & Ht2 & Hb1 & Hb2).
    simpl; rewrite Ht1, Ht2, Hb1, Hb2; done.
  - destruct (replaced_taken_busy pcs i AtTaskDone AtWhile Hi)
      as (restt & restb & Ht1 & Ht2 & Hb1 & Hb2).
    simpl; rewrite Ht1, Ht2, Hb1, Hb2. simpl. split; [done | lia].
  - rewrite list_insert_id by done. done.
Qed.

Lemma pool_run_unfinished (sched : list nat) (p : pool) :
  unfinished_tasks p.2 = (length (word_queue p.2) + in_progress p)%nat →
  unfinished_tasks (pool_run E domain dt sched p).2
  = (length (word_queue (pool_run E domain dt sched p).2)
     + in_progress (pool_run E domain dt sched p))%nat.
Proof.
  revert p. induction sched as [|i sched IH]; intros p Hp; simpl; [done|].
  by apply IH, pool_next_accounts.
Qed.

Lemma initial_unfinished (words : list string) (n : nat) :
  unfinished_tasks (initial_pool words n).2
  = (length (word_queue (initial_pool words n).2)
     + in_progress (initial_pool words n))%nat.
Proof.
  unfold in_progress, initial_pool. simpl.
  rewrite flat_map_nil; [simpl; lia|].
  by intros pc ->%elem_of_replicate_inv.
Qed.

(** The pool with which [run_pool] ends: every worker has returned and the
    queue is empty. *)
Lemma final_pool_done (words : list string) (n : nat) :
  (0 < n)%nat →
  pool_inv E domain dt words (final_pool E domain dt words n)
  ∧ (∀ pc, pc ∈ (final_pool E domain dt words n).1 → pc = Returned)
  ∧ word_queue (final_pool E domain dt words n).2 = [].
Proof.
  intros Hn. set (pf := final_pool E domain dt words n).
  assert (Hinv : pool_inv E domain dt words pf) by apply pool_run_inv, initial_inv.
  assert (Hall : ∀ i, (i < n)%nat → pf.1 !! i = Some Returned).
  { intros i Hi. unfold pf, final_pool. rewrite pool_run_app.
    apply completion_returns; [apply pool_run_inv, initial_inv| |done].
    rewrite pool_run_length. simpl. by rewrite length_replicate. }
  assert (Hlen : length pf.1 = n).
  { unfold pf, final_pool. rewrite pool_run_length. apply length_replicate. }
  split; [done|]. split.
  - intros pc (i & Hi)%list_elem_of_lookup.
    rewrite Hall in Hi by (apply lookup_lt_Some in Hi; lia). congruence.
  - apply (inv_returned _ _ _ _ _ Hinv).
    eapply list_elem_of_lookup_2. apply (Hall 0%nat). lia.
Qed.

End QueueAccounting.

Section Lookups.
Context (E : env) (domain : string) (timeout : Q) (verbose : bool).

Lemma queried_app (t1 t2 : list event) :
  queried (t1 ++ t2) = queried t1 ++ queried t2.
Proof. apply omap_app. Qed.

Lemma queried_logged (msg : string) (w : world) :
  queried (trace (logged verbose msg w)) = queried (trace w).
Proof.
  destruct verbose; [|done]. simpl. rewrite queried_app. simpl.
  by rewrite app_nil_r.
Qed.

Lemma worker_step_queries (pc : worker_pc) (sh : shared) (w : world) :
  ∃ evs,
    worker_step E domain timeout verbose pc sh w
    = (Ret (worker_next E domain (defaulttimeout w) pc sh),
       World (trace w ++ evs) (defaulttimeout w))
    ∧ queried evs = taken domain pc.
Proof.
  destruct pc; simpl;
    try (exists []; split; [by rewrite world_eta | done]).
  - exists []. rewrite world_eta. by destruct (word_queue sh).
  - exists []. rewrite world_eta. by destruct (word_queue sh).
  - destruct (resolve_subdomain_trace E (subdomain_of domain word) timeout
                verbose w) as (log & Hr & Hquiet & Hloud).
    exists (DnsQuery (subdomain_of domain word) :: log). split.
    + rewrite (bind_ret _ _ _ _ _ Hr).
      by destruct (resolves E (defaulttimeout w) (subdomain_of domain word)).
    + unfold queried. simpl. f_equal.
      destruct verbose; [destruct (Hloud eq_refl) as [line ->] | rewrite Hquiet]; done.
  - exists []. rewrite world_eta.
    by destruct (decide (subdomain ∈ found_subdomains_set sh)).
Qed.

Lemma run_schedule_queries (sched : list nat) (p : pool) (w : world) :
  ∃ evs,
    run_schedule E domain timeout verbose sched p w
    = (Ret (pool_run E domain (defaulttimeout w) sched p),
       World (trace w ++ evs) (defaulttimeout w))
    ∧ queried evs ++ waiting domain (pool_run E domain (defaulttimeout w) sched p)
      ≡ₚ waiting domain p.
Proof.
  revert p w. induction sched as [|i sched IH]; intros p w; simpl.
  { exists []. by rewrite world_eta. }
  destruct (pool_next_accounts E domain (defaulttimeout w) i p) as [Hwait _].
  assert (Hstep : ∃ evs,
            pool_step E domain timeout verbose i p w
            = (Ret (pool_next E domain (defaulttimeout w) i p),
               World (trace w ++ evs) (defaulttimeout w))
            ∧ queried evs = from_option (taken domain) [] (p.1 !! i)).
  { unfold pool_step, pool_next. destruct (p.1 !! i) as [pc|]; simpl.
    - destruct (worker_step_queries pc p.2 w) as (evs & Hs & Hq).
      exists evs. split; [|done]. rewrite (bind_ret _ _ _ _ _ Hs).
      by destruct (worker_next E domain (defaulttimeout w) pc p.2).
    - exists []. by rewrite world_eta. }
  destruct Hstep as (evs1 & Hs & Hq1).
  destruct (IH (pool_next E domain (defaulttimeout w) i p)
               (World (trace w ++ evs1) (defaulttimeout w))) as (evs2 & Hr & Hq2).
  simpl in Hr, Hq2.
  exists (evs1 ++ evs2). split.
  - rewrite (bind_ret _ _ _ _ _ Hs), Hr. by rewrite app_assoc.
  - rewrite queried_app, <- app_assoc, Hq2, Hq1. by symmetry.
Qed.

(** X6: under every schedule and with any positive number of workers,
    each word on the queue is looked up exactly once: the names looked up
    during a run are those of the wordlist's candidates, one lookup for
    each line that gives a candidate, none skipped and none repeated. *)
Theorem every_candidate_looked_up_once (path file_text : string)
    (num_threads : Z) (w : world) :
  read_text E path = Ret file_text → wordlist_words file_text ≠ [] →
  0 < num_threads →
  ∃ results w',
    brute_force_subdomains E domain path num_threads timeout verbose w
    = (Ret results, w')
    ∧ ∃ evs, trace w' = trace w ++ evs
             ∧ queried evs
               ≡ₚ map (subdomain_of domain) (wordlist_words file_text).
Proof.
  intros Hread Hne Hn.
  rewrite (brute_force_loaded E domain path file_text) by done.
  set (words := wordlist_words file_text).
  set (w0 := before_pool domain path num_threads verbose words w).
  unfold run_pool. destruct (decide (num_threads ≤ 0)) as [Hle|_]; [lia|].
  set (n := Z.to_nat num_threads).
  rewrite bind_assoc.
  rewrite (bind_ret _ _ w0 _ ()) by apply for_each_emit.
  set (w1 := World (trace w0 ++ map Submit (seq 0 n)) (defaulttimeout w0)).
  destruct (run_schedule_queries
              (schedule E ++ completion_schedule n (length words))
              (initial_pool words n) w1) as (evs & Hrun & Hq).
  fold (final_pool E domain (defaulttimeout w1) words n) in Hrun, Hq.
  destruct (final_pool_done E domain (defaulttimeout w1) words n ltac:(lia))
    as (_ & Hret & Hqueue).
  set (pf := final_pool E domain (defaulttimeout w1) words n) in *.
  assert (Hdone : waiting domain pf = []).
  { unfold waiting. rewrite Hqueue. simpl. apply flat_map_nil.
    by intros pc ->%Hret. }
  assert (Hstart : waiting domain (initial_pool words n)
                   = map (subdomain_of domain) words).
  { unfold waiting, initial_pool. simpl.
    rewrite flat_map_nil; [apply app_nil_r|].
    by intros pc ->%elem_of_replicate_inv. }
  rewrite Hdone, app_nil_r, Hstart in Hq.
  rewrite bind_assoc, (bind_ret _ _ _ _ _ Hrun).
  destruct pf as [pcs sh].
  rewrite (bind_ret _ _ _ _ (results_list sh)) by reflexivity.
  rewrite (bind_ret _ _ _ _ ()) by apply print_verbose_eq.
  eexists _, _. split; [reflexivity|].
  unfold w1, w0, before_pool, logged, after.
  destruct verbose; simpl;
    rewrite <- ?app_assoc; eexists; (split; [reflexivity|]);
    rewrite ?queried_app; simpl;
    rewrite ?queried_app; simpl;
    replace (queried (map Submit (seq 0 n))) with (@nil string);
    rewrite ?app_nil_r; try done;
    clear; induction (seq 0 n); done.
Qed.

End Lookups.

Lemma every_candidate_looked_up_once_witness :
  ∃ results w',
    brute_force_subdomains
      (sample_env www_twice all_resolve [1; 0; 1; 1; 0]%nat)
      "example.com" "words.txt" 3 2 true world0 = (Ret results, w')
    ∧ ∃ evs, trace w' = trace world0 ++ evs
             ∧ queried evs
               ≡ₚ map (subdomain_of "example.com") (wordlist_words www_twice).
Proof.
  apply (every_candidate_looked_up_once
           (sample_env www_twice all_resolve [1; 0; 1; 1; 0]%nat)
           "example.com" 2%Q true "words.txt" www_twice 3 world0);
    [reflexivity | discriminate | reflexivity].
Defined.

(** X7: at every moment of a run the queue's count of unfinished tasks is
    the number of words still queued plus the number of words a worker has
    taken and not yet marked done, so [task_done] is never called on a
    count of zero.  When [run_pool] ends, every worker has returned, the
    queue is empty and the count is zero: [word_queue.join()] returns. *)
Theorem unfinished_tasks_accounted (E : env) (domain : string) (timeout : Q)
    (verbose : bool) (words : list string) (n : nat) (w : world) :
  (∀ sched, ∃ p w',
     run_schedule E domain timeout verbose sched (initial_pool words n) w
     = (Ret p, w')
     ∧ unfinished_tasks p.2 = (length (word_queue p.2) + in_progress p)%nat
     ∧ (AtTaskDone ∈ p.1 → (0 < unfinished_tasks p.2)%nat))
  ∧ ((0 < n)%nat →
     ∃ p w',
       run_schedule E domain timeout verbose
         (schedule E ++ completion_schedule n (length words))
         (initial_pool words n) w = (Ret p, w')
       ∧ (∀ pc, pc ∈ p.1 → pc = Returned)
       ∧ word_queue p.2 = []
       ∧ unfinished_tasks p.2 = 0%nat).
Proof.
  split.
  - intros sched.
    destruct (run_schedule_pure E domain timeout verbose sched
                (initial_pool words n) w) as (w' & Hrun & _).
    eexists _, w'. split; [exact Hrun|].
    pose proof (pool_run_unfinished E domain (defaulttimeout w) sched
                  (initial_pool words n) (initial_unfinished words n)) as Hacc.
    split; [done|]. intros Hin. rewrite Hacc. unfold in_progress.
    apply list_elem_of_In, in_split in Hin as (l1 & l2 & ->).
    rewrite flat_map_app, length_app. simpl. lia.
  - intros Hn.
    destruct (run_schedule_pure E domain timeout verbose
                (schedule E ++ completion_schedule n (length words))
                (initial_pool words n) w) as (w' & Hrun & _).
    fold (final_pool E domain (defaulttimeout w) words n) in Hrun.
    destruct (final_pool_done E domain (defaulttimeout w) words n Hn)
      as (_ & Hret & Hqueue).
    eexists _, w'. split; [exact Hrun|]. split; [done|]. split; [done|].
    unfold final_pool.
    rewrite (pool_run_unfinished E domain (defaulttimeout w) _
               (initial_pool words n) (initial_unfinished words n)).
    fold (final_pool E domain (defaulttimeout w) words n).
    rewrite Hqueue. unfold in_progress. rewrite flat_map_nil; [done|].
    by intros pc ->%Hret.
Qed.

Lemma unfinished_tasks_accounted_witness :
  ∃ p w',
    run_schedule (sample_env www_twice all_resolve [0; 1]%nat) "example.com" 2 false
      (schedule (sample_env www_twice all_resolve [0; 1]%nat)
       ++ completion_schedule 2 (length ["www"; "www"]))
      (initial_pool ["www"; "www"] 2) world0 = (Ret p, w')
    ∧ (∀ pc, pc ∈ p.1 → pc = Returned)
    ∧ word_queue p.2 = []
    ∧ unfinished_tasks p.2 = 0%nat.
Proof.
  apply (unfinished_tasks_accounted (sample_env www_twice all_resolve [0; 1]%nat)
           "example.com" 2%Q false ["www"; "www"] 2 world0). lia.
Defined.

(** X8: the names the engine finds do not depend on the schedule or on
    the number of workers: two runs over the same wordlist with the same
    resolver, each with at least one worker, return lists with the same
    members, and so give the same sorted output. *)
Theorem outcome_independent_of_schedule (E1 E2 : env)
    (domain path file_text : string) (n1 n2 : Z) (t1 t2 : Q) (v1 v2 : bool)
    (w1 w2 : world) :
  read_text E1 path = Ret file_text → read_text E2 path = Ret file_text →
  wordlist_words file_text ≠ [] → 0 < n1 → 0 < n2 →
  gethostbyname_ex E1 = gethostbyname_ex E2 →
  defaulttimeout w1 = defaulttimeout w2 →
  ∃ r1 r2,
    (brute_force_subdomains E1 domain path n1 t1 v1 w1).1 = Ret r1
    ∧ (brute_force_subdomains E2 domain path n2 t2 v2 w2).1 = Ret r2
    ∧ (∀ s, s ∈ r1 ↔ s ∈ r2)
    ∧ sorted (elements (add_all r1 ∅)) = sorted (elements (add_all r2 ∅)).
Proof.
  intros Hread1 Hread2 Hne Hn1 Hn2 Hdns Hdt.
  destruct (brute_force_results E1 domain path file_text n1 t1 v1 w1
              Hread1 Hne Hn1) as (r1 & w1' & Hrun1 & Hres1 & _).
  destruct (brute_force_results E2 domain path file_text n2 t2 v2 w2
              Hread2 Hne Hn2) as (r2 & w2' & Hrun2 & Hres2 & _).
  exists r1, r2. rewrite Hrun1, Hrun2. split; [done|]. split; [done|].
  assert (Hsame : ∀ s, s ∈ r1 ↔ s ∈ r2).
  { intros s. rewrite Hres1, Hres2. unfold resolves. by rewrite Hdns, Hdt. }
  split; [done|]. f_equal. f_equal. apply set_eq. intros s.
  rewrite !add_all_elem. by rewrite Hsame.
Qed.

Lemma outcome_independent_of_schedule_witness :
  ∃ r1 r2,
    (brute_force_subdomains (sample_env www_twice all_resolve [])
       "example.com" "words.txt" 1 2 false world0).1 = Ret r1
    ∧ (brute_force_subdomains
         (sample_env www_twice all_resolve [0; 1; 0; 1; 0; 1; 0; 1; 0; 1; 0; 1]%nat)
         "example.com" "words.txt" 2 5 true world0).1 = Ret r2
    ∧ (∀ s, s ∈ r1 ↔ s ∈ r2)
    ∧ sorted (elements (add_all r1 ∅)) = sorted (elements (add_all r2 ∅)).
Proof.
  apply (outcome_independent_of_schedule
           (sample_env www_twice all_resolve [])
           (sample_env www_twice all_resolve [0; 1; 0; 1; 0; 1; 0; 1; 0; 1; 0; 1]%nat)
           "example.com" "words.txt" www_twice 1 2 2%Q 5%Q false true world0 world0);
    try reflexivity; discriminate.
Defined.

(** X9: whatever happens, [brute_force_subdomains] only opens the
    wordlist, submits workers and looks names up: it never writes to
    standard output, sends no HTTP request, writes no file and leaves the
    process-wide time-out alone.  It writes to the error stream only when
    [verbose]. *)
Theorem brute_force_only_engine_events (E : env) (domain path : string)
    (num_threads : Z) (timeout : Q) (verbose : bool) (w : world) :
  ∃ evs,
    (brute_force_subdomains E domain path num_threads timeout verbose w).2
    = World (trace w ++ evs) (defaulttimeout w)
    ∧ forallb (engine_event verbose) evs = true.
Proof.
  apply (brute_force_subdomains_emits E (engine_event verbose) verbose); done.
Qed.

(** ** The passive fetch and the report *)

(** X10: [fetch_crtsh_subdomains] sends exactly one request, to the
    crt.sh address of the domain, and looks no name up.  It ends in one of
    two ways: it returns a list without duplicates and reports, when
    verbose, that list's length; or it raises, and then nothing of what
    the answer held is returned. *)
Theorem fetch_sends_one_request (E : env) (domain : string) (verbose : bool)
    (w : world) :
  (∃ names,
     fetch_crtsh_subdomains E domain verbose w
     = (Ret names,
        logged verbose ("Found " +:+ pretty (length names)
                        +:+ " unique subdomains from crt.sh.")
               (request_sent domain verbose w))
     ∧ NoDup names)
  ∨ (∃ e, fetch_crtsh_subdomains E domain verbose w
          = (Raise e, request_sent domain verbose w)).
Proof.
  unfold fetch_crtsh_subdomains.
  rewrite (bind_ret _ _ w _ ()) by apply print_verbose_eq.
  rewrite (bind_ret _ _ _ _ ()) by apply emit_eq.
  fold (request_sent domain verbose w).
  destruct (crtsh_try_body E domain) as [[found resp] [e|]].
  - right.
    assert (Hh : ∃ e', crtsh_handlers resp e (request_sent domain verbose w)
                       = (Raise e', request_sent domain verbose w)).
    { unfold crtsh_handlers.
      destruct e; simpl; try (by eexists; apply print_error_raises);
        try (by eexists).
      destruct resp; [by eexists; apply print_error_raises | by eexists]. }
    destruct Hh as [e' Hh]. exists e'. by rewrite (bind_raise _ _ _ _ _ Hh).
  - left. exists (elements found).
    rewrite (bind_ret _ _ _ (request_sent domain verbose w) ()) by reflexivity.
    rewrite (bind_ret _ _ _ _ ()) by apply print_verbose_eq.
    split; [done | apply NoDup_elements].
Qed.

(** X11: when nothing was found, [main] prints the single line that says
    so and returns normally, so that the exit status is 0; it opens no
    output file, even when [--output] was given. *)
Theorem nothing_found_is_not_an_error (E : env) (a : args) (w w1 : world)
    (s : gset string) :
  usage_ok a = true → collect E a w = (Ret s, w1) → elements s = [] →
  main E a w
  = (Ret (),
     logged (arg_verbose a) ("Scan completed in " +:+ elapsed E +:+ " seconds.")
       (after w1 (Stdout (PyStr.nl +:+ "No subdomains found for "
                          +:+ arg_domain a +:+ "."))))
  ∧ (w = world0 → (run_program E a).1 = 0).
Proof.
  intros Hok Hcollect Hempty.
  assert (Hmain : main E a w
                  = (Ret (),
                     logged (arg_verbose a)
                       ("Scan completed in " +:+ elapsed E +:+ " seconds.")
                       (after w1 (Stdout (PyStr.nl +:+ "No subdomains found for "
                                          +:+ arg_domain a +:+ "."))))).
  { unfold main.
    rewrite (bind_ret _ _ w w ()) by (by apply check_usage_ok).
    rewrite (bind_ret _ _ _ _ _ Hcollect). unfold report. rewrite Hempty.
    rewrite (bind_ret _ _ _ _ ()) by apply print_always_eq.
    apply print_verbose_eq. }
  split; [done|]. intros ->.
  unfold run_program, dunder_main, try_except. by rewrite Hmain.
Qed.

Lemma nothing_found_is_not_an_error_witness :
  let E := crtsh_env [TextMember "example.com"] in
  let a := Args "example.com" None (Some "out.txt") 10 2 true false false in
  main E a world0
  = (Ret (),
     World [SetDefaultTimeout 2; HttpGet (CRTSH_URL "example.com");
            Stdout (PyStr.nl +:+ "No subdomains found for example.com.")]
           (Some 2%Q))
  ∧ (run_program E a).1 = 0.
Proof.
  intros E a.
  assert (Hc : collect E a world0
               = (Ret ∅, World [SetDefaultTimeout 2; HttpGet (CRTSH_URL "example.com")]
                               (Some 2%Q))) by (vm_compute; reflexivity).
  destruct (nothing_found_is_not_an_error E a world0 _ ∅ eq_refl Hc eq_refl)
    as [Hmain Hexit].
  split; [exact Hmain | by apply Hexit].
Defined.

(** X12: when something was found, [--output] names a file and the file
    can be opened, the file receives exactly the names printed on standard
    output, in the same order, each followed by a line feed, after all of
    them have been printed; the line that confirms the copy follows. *)
Theorem output_file_mirrors_stdout (E : env) (a : args) (path : string)
    (s : gset string) (w : world) :
  arg_output a = Some path → PyStr.nonempty path = true →
  open_write E path = Ret () → elements s ≠ [] →
  let names := sorted (elements s) in
  report E a s w
  = (Ret (),
     logged (arg_verbose a) ("Scan completed in " +:+ elapsed E +:+ " seconds.")
       (World (trace w ++ Stdout (banner (arg_domain a) s) :: map Stdout names
                       ++ OpenWrite path
                          :: map (λ sub, FileWrite path (sub +:+ PyStr.nl)) names
                       ++ [Stdout (saved_message path)])
              (defaulttimeout w))).
Proof.
  intros Hout Hne Hopen Hfound names. unfold report, banner.
  destruct (elements s) as [|x l] eqn:Hel; [done|].
  fold names. rewrite bind_assoc.
  rewrite (bind_ret _ _ w _ ()) by apply print_always_eq.
  rewrite bind_assoc.
  rewrite (bind_ret _ _ _ _ ()) by apply for_each_emit.
  assert (Hsave : ∀ w0, save_results E a names w0
                        = (Ret (),
                           World (trace w0 ++ OpenWrite path
                                    :: map (λ sub, FileWrite path (sub +:+ PyStr.nl)) names
                                    ++ [Stdout (saved_message path)])
                                 (defaulttimeout w0))).
  { intros w0. unfold save_results, try_except. rewrite Hout, Hne.
    rewrite (bind_ret _ _ w0 _ ()) by apply emit_eq.
    rewrite (bind_ret _ _ _ (after w0 (OpenWrite path)) ())
      by (unfold lift; by rewrite Hopen).
    rewrite (bind_ret _ _ _ _ ()) by apply for_each_emit.
    rewrite print_always_eq. unfold after. simpl.
    by rewrite <- !app_assoc. }
  rewrite (bind_ret _ _ _ _ _ (Hsave _)).
  rewrite print_verbose_eq. simpl. by rewrite <- !app_assoc.
Qed.

Lemma output_file_mirrors_stdout_witness :
  let a := Args "example.com" None (Some "out.txt") 10 2 false false false in
  let s : gset string := {["www.example.com"]} ∪ {["a.example.com"]} in
  report both_env a s world0
  = (Ret (),
     World [Stdout (PyStr.nl +:+ "--- Found 2 Unique Subdomain(s) ---");
            Stdout "a.example.com"; Stdout "www.example.com";
            OpenWrite "out.txt";
            FileWrite "out.txt" ("a.example.com" +:+ PyStr.nl);
            FileWrite "out.txt" ("www.example.com" +:+ PyStr.nl);
            Stdout (saved_message "out.txt")] None).
Proof.
  intros a s.
  assert (Hfound : elements s ≠ []) by (vm_compute; discriminate).
  pose proof (output_file_mirrors_stdout both_env a "out.txt" s world0
                eq_refl eq_refl eq_refl Hfound) as Hreport.
  rewrite Hreport. vm_compute. reflexivity.
Defined.

(** ** More on the engine and on runs that end early *)

(** X13: with a readable wordlist that gives at least one candidate and
    with at least one worker, [brute_force_subdomains] always returns,
    under every schedule, and the list it returns holds exactly the names
    [candidate.domain] whose lookup gave an address: none that failed, and
    every one that succeeded. *)
Theorem engine_returns_resolving_names (E : env) (domain path file_text : string)
    (num_threads : Z) (timeout : Q) (verbose : bool) (w : world) :
  read_text E path = Ret file_text → wordlist_words file_text ≠ [] →
  0 < num_threads →
  ∃ results,
    (brute_force_subdomains E domain path num_threads timeout verbose w).1
    = Ret results
    ∧ ∀ s, s ∈ results ↔
           ∃ word, word ∈ wordlist_words file_text
                   ∧ s = subdomain_of domain word
                   ∧ resolves E (defaulttimeout w) s = true.
Proof.
  intros Hread Hne Hn.
  destruct (brute_force_results E domain path file_text num_threads timeout
              verbose w Hread Hne Hn) as (results & w' & Hrun & Hres & _).
  exists results. by rewrite Hrun.
Qed.

Lemma engine_returns_resolving_names_witness :
  ∃ results,
    (brute_force_subdomains (sample_env three_words www_and_mail [2; 0; 1; 1; 2]%nat)
       "example.com" "words.txt" 3 2 false world0).1 = Ret results
    ∧ sorted (elements (add_all results ∅))
      = ["mail.example.com"; "www.example.com"].
Proof.
  destruct (engine_returns_resolving_names
              (sample_env three_words www_and_mail [2; 0; 1; 1; 2]%nat)
              "example.com" "words.txt" three_words 3 2%Q false world0)
    as (results & Hrun & _); [reflexivity | discriminate | reflexivity |].
  exists results. split; [exact Hrun|].
  assert (Hval : Ret results = Ret ["www.example.com"; "mail.example.com"]
                 ∨ Ret results = Ret ["mail.example.com"; "www.example.com"]).
  { rewrite <- Hrun. vm_compute. auto. }
  destruct Hval as [[= ->]|[= ->]]; vm_compute; reflexivity.
Defined.





(** X16: with a positive count the engine submits exactly that many
    workers, numbered from 0, and none later while they run. *)
Theorem submits_exactly_num_threads (E : env) (domain path file_text : string)
    (num_threads : Z) (timeout : Q) (verbose : bool) (w : world) :
  read_text E path = Ret file_text → wordlist_words file_text ≠ [] →
  0 < num_threads →
  List.filter is_submit
    (trace (brute_force_subdomains E domain path num_threads timeout verbose w).2)
  = List.filter is_submit (trace w) ++ map Submit (seq 0 (Z.to_nat num_threads)).
Proof.
  intros Hread Hne Hn.
  rewrite (brute_force_loaded E domain path file_text) by done.
  set (words := wordlist_words file_text).
  set (w0 := before_pool domain path num_threads verbose words w).
  assert (Hw0 : List.filter is_submit (trace w0) = List.filter is_submit (trace w))
    by (by apply before_pool_filter).
  unfold run_pool. destruct (decide (num_threads ≤ 0)) as [Hle|_]; [lia|].
  set (n := Z.to_nat num_threads).
  rewrite bind_assoc.
  rewrite (bind_ret _ _ w0 _ ()) by apply for_each_emit.
  set (w1 := World (trace w0 ++ map Submit (seq 0 n)) (defaulttimeout w0)).
  set (sched := schedule E ++ completion_schedule n (length words)).
  destruct (run_schedule_pure E domain timeout verbose sched
              (initial_pool words n) w1) as (w2 & Hrun & _).
  destruct (run_schedule_emits E (λ e, negb (is_submit e)) verbose
              ltac:(done) domain timeout sched (initial_pool words n)
              ltac:(done) w1) as (evs & Hw2 & Hnone).
  rewrite Hrun in Hw2. simpl in Hw2.
  rewrite bind_assoc, (bind_ret _ _ _ _ _ Hrun).
  destruct (pool_run E domain (defaulttimeout w1) sched (initial_pool words n))
    as [pcs sh].
  rewrite (bind_ret _ _ _ _ (results_list sh)) by reflexivity.
  rewrite (bind_ret _ _ _ _ ()) by apply print_verbose_eq.
  simpl. rewrite logged_filter by done. rewrite Hw2. simpl.
  rewrite !List.filter_app, Hw0.
  assert (Hevs : List.filter is_submit evs = []).
  { clear -Hnone. induction evs as [|e evs IH]; simpl in *; [done|].
    apply andb_true_iff in Hnone as [He Hrest].
    apply negb_true_iff in He. rewrite He. by apply IH. }
  rewrite Hevs, app_nil_r. f_equal.
  clear. induction (seq 0 n) as [|i l IH]; simpl; [done | by rewrite IH].
Qed.

Lemma submits_exactly_num_threads_witness :
  List.filter is_submit
    (trace (brute_force_subdomains (sample_env three_words www_and_mail [])
              "example.com" "words.txt" 4 2 true world0).2)
  = List.filter is_submit (trace world0) ++ map Submit (seq 0 (Z.to_nat 4)).
Proof.
  apply (submits_exactly_num_threads (sample_env three_words www_and_mail [])
           "example.com" "words.txt" three_words 4 2%Q true world0);
    [reflexivity | discriminate | reflexivity].
Defined.
